(** * Random Weather server: the retry loop of GET /api/randomWeather

    A shallow embedding of [src/server.ts]: the city store, the two upstream
    clients ([reverseGeocode], [fetchWeather]), the bounded retry loop of the
    request handler and the start-up loading of the city dataset; and of the
    state logic of the React component [client/src/App.tsx]: its fetch
    handler, its two classification helpers and the conditions under which
    its cards are rendered.

    Conventions of the embedding.
    - A JavaScript [number] is an exact rational ([Q]); the only arithmetic
      the server performs on numbers is [Math.random() * cities.length],
      whose product is taken exactly.
    - A value that may be [undefined] or [null] is an [option].
    - The documents of the two services and of the dataset are taken at the
      interface types the code casts them to ([NominatimResponse],
      [OpenMeteoResponse], [City[]]).
    - An [async] function is a computation of the monad [Async]: it reads the
      outside world, appends to a chronological trace of observable effects
      and either completes normally or throws.
    - Time is not measured: a call that the 10 s timer aborts is a call
      that rejects with [AbortError], and a sleep is an event of the trace.
    - Console output is not part of the model. *)

From Stdlib Require Import ZArith QArith Qround Lia.
From stdpp Require Import base list strings.
From Equations Require Import Equations.

Open Scope Z_scope.

Definition number : Type := Q.

(** ** Interfaces of [server.ts] and [client/src/types.ts] *)

Module City.
Record t : Type := mk {
  name : string;
  country : string;
  latitude : number;
  longitude : number;
  population : number
}.
End City.

Module Address.
Record t : Type := mk {
  country : option string;
  city : option string;
  town : option string;
  village : option string;
  state : option string
}.
End Address.

Module NominatimResponse.
Record t : Type := mk {
  display_name : option string;
  address : option Address.t
}.
End NominatimResponse.

Module Current.
Record t : Type := mk {
  temperature_2m : number;
  wind_speed_10m : number
}.
End Current.

Module Hourly.
Record t : Type := mk {
  time : list string;
  temperature_2m : list number;
  wind_speed_10m : list number
}.
End Hourly.

Module OpenMeteoResponse.
Record t : Type := mk {
  timezone : string;
  current : option Current.t;
  hourly : option Hourly.t
}.
End OpenMeteoResponse.

(** The anonymous result type of [reverseGeocode]. *)
Module GeoResult.
Record t : Type := mk {
  displayName : string;
  country : string
}.
End GeoResult.

(** An entry of [forecast.hourly].  [temperature_2m[index]] is [undefined]
    when [index] is past the end of the array, hence the options. *)
Module HourlyForecast.
Record t : Type := mk {
  time : string;
  temperature : option number;
  windSpeed : option number
}.
End HourlyForecast.

Module ChosenPlace.
Record t : Type := mk {
  displayName : string;
  country : string;
  latitude : number;
  longitude : number;
  timezone : string
}.
End ChosenPlace.

Module CurrentForecast.
Record t : Type := mk {
  temperature : number;
  temperatureUnit : string;
  windSpeed : number;
  windSpeedUnit : string
}.
End CurrentForecast.

Module Forecast.
Record t : Type := mk {
  current : CurrentForecast.t;
  hourly : list HourlyForecast.t
}.
End Forecast.

Module DataSources.
Record t : Type := mk {
  geocoding : string;
  weather : string
}.
End DataSources.

Module WeatherResponse.
Record t : Type := mk {
  chosenPlace : ChosenPlace.t;
  forecast : Forecast.t;
  dataSources : DataSources.t
}.
End WeatherResponse.

Module ErrorResponse.
Record t : Type := mk {
  error : string;
  message : string
}.
End ErrorResponse.

(** ** What Express sends back *)

Inductive payload : Type :=
| WeatherBody (body : WeatherResponse.t)
| ErrorBody (body : ErrorResponse.t).

Record HttpResponse : Type := mkHttpResponse {
  statusCode : Z;
  body : payload
}.

(** [res.status(code)] and [res.json(body)]; a fresh [res] has status 200. *)
Record Res : Type := mkRes { res_statusCode : Z }.

Definition res : Res := {| res_statusCode := 200 |}.

Definition res_status (r : Res) (code : Z) : Res := {| res_statusCode := code |}.

Definition res_json (r : Res) (b : payload) : HttpResponse :=
  {| statusCode := res_statusCode r; body := b |}.

(** ** The outside world *)

Inductive exn : Type :=
| AbortError      (* the AbortController fired: the call timed out *)
| NetworkError    (* fetch failed: DNS, connection reset, ... *)
| SyntaxError     (* the body is not JSON *)
| TypeError       (* property read on undefined *)
| ENOENT.         (* the file does not exist *)

(** A [globalThis.Response]: its status and what [response.json()] gives. *)
Record Response (A : Type) : Type := mkResponse {
  status : Z;
  json_result : exn + A
}.
Arguments mkResponse {A} status json_result.
Arguments status {A} r.
Arguments json_result {A} r.

Definition ok {A : Type} (r : Response A) : bool :=
  (200 <=? status r) && (status r <=? 299).

Inductive url : Type :=
| nominatim_reverse (lat lon : number)
| open_meteo_forecast (latitude longitude : number).

Inductive event : Type :=
| Drew (r : number)                    (* Math.random() returned r *)
| Fetched (u : url) (timeoutMs : Z)    (* one outbound call *)
| Slept (ms : Z).                      (* sleep(ms) ran to completion *)

(** What the environment does during one request.  Every attempt of the
    handler draws one city first, so "the number of draws so far" names the
    attempt during which an upstream call is made; the answer of a service
    may depend on it and on the coordinates asked for. *)
Record World : Type := mkWorld {
  Math_random : nat -> number;
  nominatim : nat -> number -> number -> exn + Response NominatimResponse.t;
  open_meteo : nat -> number -> number -> exn + Response OpenMeteoResponse.t
}.

Record state : Type := mkState {
  draws : nat;
  trace : list event
}.

Definition idle : state := {| draws := 0; trace := [] |}.

Definition emit (e : event) (s : state) : state :=
  {| draws := draws s; trace := trace s ++ [e] |}.

(** ** The monad of asynchronous computations *)

Inductive completion (A : Type) : Type :=
| Normal (a : A)
| Throws (e : exn).
Arguments Normal {A} a.
Arguments Throws {A} e.

Definition Async (A : Type) : Type := state -> completion A * state.

Definition ret {A : Type} (a : A) : Async A := fun s => (Normal a, s).

Definition throw {A : Type} (e : exn) : Async A := fun s => (Throws e, s).

Definition bind {A B : Type} (m : Async A) (k : A -> Async B) : Async B :=
  fun s =>
    match m s with
    | (Normal a, s') => k a s'
    | (Throws e, s') => (Throws e, s')
    end.

Definition try_catch {A : Type} (m : Async A) (handler : exn -> Async A) : Async A :=
  fun s =>
    match m s with
    | (Normal a, s') => (Normal a, s')
    | (Throws e, s') => handler e s'
    end.

Definition try_finally {A : Type} (m : Async A) (cleanup : Async unit) : Async A :=
  fun s =>
    match m s with
    | (c, s') =>
        match cleanup s' with
        | (Normal _, s'') => (c, s'')
        | (Throws e, s'') => (Throws e, s'')
        end
    end.

Declare Scope async_scope.
Delimit Scope async_scope with async.
Notation "'let*' x ':=' m 'in' k" := (bind m (fun x => k))
  (at level 10, x name, m at level 100, k at level 200) : async_scope.
Open Scope async_scope.

(** Lifting a promise that is already settled. *)
Definition settle {A : Type} (r : exn + A) : Async A :=
  match r with
  | inl e => throw e
  | inr a => ret a
  end.

Definition json {A : Type} (r : Response A) : Async A := settle (json_result r).

(** ** Server *)


Section Server.

(** The environment of one request and the module-level [cities]. *)
Variable w : World.
Variable cities : list City.t.

(** *** Primitives supplied by the runtime *)

Definition random : Async number :=
  fun s =>
    let k := S (draws s) in
    let r := Math_random w k in
    (Normal r, {| draws := k; trace := trace s ++ [Drew r] |}).

(** [fetch(url, { ...options, signal })]: the timer of [timeoutMs] is the
    only way the signal fires, and it shows as an [AbortError]. *)
Definition fetch_nominatim (lat lon : number) (timeoutMs : Z)
  : Async (Response NominatimResponse.t) :=
  fun s =>
    let (c, s') := settle (nominatim w (draws s) lat lon) s in
    (c, emit (Fetched (nominatim_reverse lat lon) timeoutMs) s').

Definition fetch_open_meteo (latitude longitude : number) (timeoutMs : Z)
  : Async (Response OpenMeteoResponse.t) :=
  fun s =>
    let (c, s') := settle (open_meteo w (draws s) latitude longitude) s in
    (c, emit (Fetched (open_meteo_forecast latitude longitude) timeoutMs) s').

Definition clearTimeout : Async unit := ret tt.

Definition sleep (ms : Z) : Async unit :=
  fun s => (Normal tt, emit (Slept ms) s).

(** [array[index]] for a numeric index: [undefined] outside the array. *)
Definition array_get {A : Type} (array : list A) (index : Z) : option A :=
  if index <? 0 then None else array !! Z.to_nat index.

(** Truthiness of an optional string: present and not empty. *)
Definition truthy (v : option string) : option string :=
  match v with
  | Some s => if String.eqb s "" then None else Some s
  | None => None
  end.

(** *** [fetchWithTimeout] *)

Definition fetchWithTimeout {A : Type}
    (fetch : Z -> Async (Response A)) (timeoutMs : Z) : Async (Response A) :=
  try_finally
    (let* response := fetch timeoutMs in
     ret response)
    clearTimeout.

(** *** [getRandomCity] *)

Definition random_index (r : number) (length : nat) : Z :=
  Qfloor (r * inject_Z (Z.of_nat length)).

Definition getRandomCity : Async (option City.t) :=
  let* r := random in
  let index := random_index r (length cities) in
  ret (array_get cities index).

(** *** [reverseGeocode] *)

Definition reverseGeocode (latitude longitude : number) : Async (option GeoResult.t) :=
  try_catch
    (let* response := fetchWithTimeout (fetch_nominatim latitude longitude) 10000 in
     if negb (ok response) then ret None
     else
       let* data := json response in
       match truthy (NominatimResponse.display_name data),
             truthy (NominatimResponse.address data ≫= Address.country) with
       | Some display_name, Some country =>
           ret (Some {| GeoResult.displayName := display_name;
                        GeoResult.country := country |})
       | _, _ => ret None
       end)
    (fun error => ret None).

(** *** [fetchWeather] *)

Definition fetchWeather (latitude longitude : number) : Async (option OpenMeteoResponse.t) :=
  try_catch
    (let* response := fetchWithTimeout (fetch_open_meteo latitude longitude) 10000 in
     if negb (ok response) then ret None
     else
       let* data := json response in
       ret (Some data))
    (fun error => ret None).

(** *** The handler of [GET /api/randomWeather] *)

Definition maxAttempts : nat := 10.
Definition retryDelay : Z := 1100.

Definition hourlyForecast (hourly : Hourly.t) : list HourlyForecast.t :=
  imap (fun index time =>
          {| HourlyForecast.time := time;
             HourlyForecast.temperature := Hourly.temperature_2m hourly !! index;
             HourlyForecast.windSpeed := Hourly.wind_speed_10m hourly !! index |})
       (take 24 (Hourly.time hourly)).

Definition response (city : City.t) (geoResult : GeoResult.t)
    (weatherData : OpenMeteoResponse.t) (current : Current.t) (hourly : Hourly.t)
  : WeatherResponse.t :=
  {| WeatherResponse.chosenPlace :=
       {| ChosenPlace.displayName := GeoResult.displayName geoResult;
          ChosenPlace.country := GeoResult.country geoResult;
          ChosenPlace.latitude := City.latitude city;
          ChosenPlace.longitude := City.longitude city;
          ChosenPlace.timezone := OpenMeteoResponse.timezone weatherData |};
     WeatherResponse.forecast :=
       {| Forecast.current :=
            {| CurrentForecast.temperature := Current.temperature_2m current;
               CurrentForecast.temperatureUnit := "¬∞C";
               CurrentForecast.windSpeed := Current.wind_speed_10m current;
               CurrentForecast.windSpeedUnit := "km/h" |};
          Forecast.hourly := hourlyForecast hourly |};
     WeatherResponse.dataSources :=
       {| DataSources.geocoding :=
            "OpenStreetMap Nominatim (https://nominatim.openstreetmap.org)";
          DataSources.weather := "Open-Meteo (https://open-meteo.com)" |} |}.

Definition unavailable : ErrorResponse.t :=
  {| ErrorResponse.error := "Service Unavailable";
     ErrorResponse.message :=
       "Unable to resolve a valid location after multiple attempts. The geocoding service may be temporarily unavailable or rate-limited. Please try again in a few moments." |}.

(** The failure branch shared by the two guards: sleep unless this was
    the last attempt, then [continue]. *)
Definition retry (attempt : nat) (continue : Async HttpResponse) : Async HttpResponse :=
  let* _ := (if (attempt <? maxAttempts)%nat then sleep retryDelay else ret tt) in
  continue.

(** One iteration of the [for] loop; [continue] is the rest of the loop. *)
Definition iteration (attempt : nat) (continue : Async HttpResponse) : Async HttpResponse :=
  let* city := getRandomCity in
  match city with
  | None => throw TypeError          (* [city.name] on [undefined] *)
  | Some city =>
      let* geoResult := reverseGeocode (City.latitude city) (City.longitude city) in
      match geoResult with
      | None => retry attempt continue
      | Some geoResult =>
          let* weatherData := fetchWeather (City.latitude city) (City.longitude city) in
          match weatherData with
          | None => retry attempt continue
          | Some weatherData =>
              match OpenMeteoResponse.current weatherData,
                    OpenMeteoResponse.hourly weatherData with
              | Some current, Some hourly =>
                  ret (res_json res
                         (WeatherBody (response city geoResult weatherData current hourly)))
              | _, _ => retry attempt continue
              end
          end
      end
  end.

Equations? for_attempts (attempt : nat) : Async HttpResponse
  by wf (S maxAttempts - attempt)%nat lt :=
  for_attempts attempt with le_gt_dec attempt maxAttempts := {
    | left _ => iteration attempt (for_attempts (S attempt))
    | right _ =>
        ret (res_json (res_status res 503) (ErrorBody unavailable)) }.
Proof. lia. Qed.

Definition randomWeather : Async HttpResponse := for_attempts 1.

(** *** Reading an execution attempt by attempt *)

(** What a computation returns when it runs during attempt [k]. *)
Definition at_attempt {A : Type} (k : nat) (m : Async A) : completion A :=
  fst (m {| draws := k; trace := [] |}).

Definition city_at (k : nat) : option City.t :=
  array_get cities (random_index (Math_random w k) (length cities)).

Definition geocoding_at (k : nat) (city : City.t) : completion (option GeoResult.t) :=
  at_attempt k (reverseGeocode (City.latitude city) (City.longitude city)).

Definition weather_at (k : nat) (city : City.t) : completion (option OpenMeteoResponse.t) :=
  at_attempt k (fetchWeather (City.latitude city) (City.longitude city)).

Inductive verdict : Type :=
| Crash
| GeocodingFailed (city : City.t)
| WeatherFailed (city : City.t) (geoResult : GeoResult.t)
| Success (city : City.t) (geoResult : GeoResult.t)
          (weatherData : OpenMeteoResponse.t) (current : Current.t) (hourly : Hourly.t).

Definition verdict_at (k : nat) : verdict :=
  match city_at k with
  | None => Crash
  | Some city =>
      match geocoding_at k city with
      | Throws _ => Crash
      | Normal None => GeocodingFailed city
      | Normal (Some geoResult) =>
          match weather_at k city with
          | Throws _ => Crash
          | Normal None => WeatherFailed city geoResult
          | Normal (Some weatherData) =>
              match OpenMeteoResponse.current weatherData,
                    OpenMeteoResponse.hourly weatherData with
              | Some current, Some hourly =>
                  Success city geoResult weatherData current hourly
              | _, _ => WeatherFailed city geoResult
              end
          end
      end
  end.

Definition failed (k : nat) : bool :=
  match verdict_at k with
  | GeocodingFailed _ | WeatherFailed _ _ => true
  | _ => false
  end.

Definition geocoding_call (city : City.t) : event :=
  Fetched (nominatim_reverse (City.latitude city) (City.longitude city)) 10000.

Definition weather_call (city : City.t) : event :=
  Fetched (open_meteo_forecast (City.latitude city) (City.longitude city)) 10000.

Definition pause (k : nat) : list event :=
  if (k <? maxAttempts)%nat then [Slept retryDelay] else [].

(** The effects of attempt [k], in order. *)
Definition attempt_events (k : nat) : list event :=
  Drew (Math_random w k) ::
  match verdict_at k with
  | Crash => []
  | GeocodingFailed city => geocoding_call city :: pause k
  | WeatherFailed city _ => geocoding_call city :: weather_call city :: pause k
  | Success city _ _ _ _ => [geocoding_call city; weather_call city]
  end.

(** The state after attempts [a], [a+1], ..., [a+n-1] ran from state [s]. *)
Definition after (s : state) (a n : nat) : state :=
  {| draws := (draws s + n)%nat;
     trace := trace s ++ flat_map attempt_events (seq a n) |}.

End Server.

(** Projections of a trace. *)
Definition sleeps (t : list event) : list Z :=
  omap (fun e => match e with Slept ms => Some ms | _ => None end) t.

Definition drawn (t : list event) : list number :=
  omap (fun e => match e with Drew r => Some r | _ => None end) t.

Definition calls (t : list event) : list url :=
  omap (fun e => match e with Fetched u _ => Some u | _ => None end) t.

Definition is_nominatim (u : url) : bool :=
  match u with nominatim_reverse _ _ => true | _ => false end.

Definition is_open_meteo (u : url) : bool :=
  match u with open_meteo_forecast _ _ => true | _ => false end.

(** ** Start-up: loading [data/cities.json] *)



(** ** Fixtures: a one-city dataset and three environments *)

Definition Testville : City.t :=
  {| City.name := "Testville"; City.country := "Test Country";
     City.latitude := 10%Q; City.longitude := 20%Q; City.population := 1000%Q |}.

Definition testville_place : NominatimResponse.t :=
  {| NominatimResponse.display_name := Some "Testville, Test Country";
     NominatimResponse.address :=
       Some {| Address.country := Some "Test Country"; Address.city := Some "Testville";
               Address.town := None; Address.village := None; Address.state := None |} |}.

Definition testville_result : GeoResult.t :=
  {| GeoResult.displayName := "Testville, Test Country";
     GeoResult.country := "Test Country" |}.

Definition testville_current : Current.t :=
  {| Current.temperature_2m := 15%Q; Current.wind_speed_10m := 5%Q |}.

Definition three_hours : Hourly.t :=
  {| Hourly.time := ["2024-01-15T14:00"; "2024-01-15T15:00"; "2024-01-15T16:00"];
     Hourly.temperature_2m := [15; 16; 14]%Q;
     Hourly.wind_speed_10m := [5; 7; 6]%Q |}.

Definition testville_weather : OpenMeteoResponse.t :=
  {| OpenMeteoResponse.timezone := "Etc/UTC";
     OpenMeteoResponse.current := Some testville_current;
     OpenMeteoResponse.hourly := Some three_hours |}.

(** A weather document without its [hourly] section. *)
Definition no_hourly : OpenMeteoResponse.t :=
  {| OpenMeteoResponse.timezone := "Etc/UTC";
     OpenMeteoResponse.current := Some testville_current;
     OpenMeteoResponse.hourly := None |}.

(** The 200 that the handler sends for Testville. *)
Definition fair_answer : HttpResponse :=
  {| statusCode := 200;
     body := WeatherBody
               (response Testville testville_result testville_weather
                         testville_current three_hours) |}.

(** Both services answer at once. *)
Definition fair : World :=
  {| Math_random := fun _ => (1 # 2)%Q;
     nominatim := fun _ _ _ => inr (mkResponse 200 (inr testville_place));
     open_meteo := fun _ _ _ => inr (mkResponse 200 (inr testville_weather)) |}.


(** Geocoding times out on the first attempt, the weather service is down
    on the second, and the third attempt goes through. *)
Definition flaky : World :=
  {| Math_random := fun _ => (1 # 2)%Q;
     nominatim := fun k _ _ =>
       if (k <? 2)%nat then inl AbortError else inr (mkResponse 200 (inr testville_place));
     open_meteo := fun k _ _ =>
       if (k <? 3)%nat then inr (mkResponse 503 (inl SyntaxError))
       else inr (mkResponse 200 (inr testville_weather)) |}.

(** The weather service answers with a document that lacks [hourly]. *)
Definition hourless : World :=
  {| Math_random := fun _ => (1 # 2)%Q;
     nominatim := fun _ _ _ => inr (mkResponse 200 (inr testville_place));
     open_meteo := fun _ _ _ => inr (mkResponse 200 (inr no_hourly)) |}.

(** ** Vocabulary of the statements *)




(** ** The browser client: [client/src/App.tsx] *)

(** [a <= b] and [a < b] on numbers. *)
Definition number_le (a b : number) : bool := Qle_bool a b.
Definition number_lt (a b : number) : bool := negb (Qle_bool b a).

Module App.

(** A value that can be thrown: an [Error] with its message, or anything
    else. *)
Inductive thrown : Type :=
| Error (message : string)
| NotAnError.

(** The reply to [fetch('/api/randomWeather')]: its status and what
    [response.json()] gives.  A parsed body is one of the two documents the
    server sends. *)
Record Reply : Type := mkReply {
  status : Z;
  json_result : thrown + payload
}.

Definition ok (r : Reply) : bool :=
  (200 <=? status r) && (status r <=? 299).

(** The three [useState] cells.  The annotation [WeatherResponse] on the
    parsed body is not checked at run time: the cell holds whichever
    document arrived. *)
Record Component : Type := mkComponent {
  weather : option payload;
  loading : bool;
  error : option string
}.

Definition mounted : Component :=
  {| weather := None; loading := false; error := None |}.

(** A run of an event handler: the cells now, and the contents of the
    cells each time the handler was suspended at an [await] (what React
    had on screen while it waited). *)
Record Run : Type := mkRun {
  cells : Component;
  suspended : list Component
}.

Inductive outcome (A : Type) : Type :=
| Done (a : A)
| Raised (t : thrown).
Arguments Done {A} a.
Arguments Raised {A} t.

Definition Task (A : Type) : Type := Run -> outcome A * Run.

Definition ret {A : Type} (a : A) : Task A := fun r => (Done a, r).

Definition throw {A : Type} (t : thrown) : Task A := fun r => (Raised t, r).

Definition bind {A B : Type} (m : Task A) (k : A -> Task B) : Task B :=
  fun r =>
    match m r with
    | (Done a, r') => k a r'
    | (Raised t, r') => (Raised t, r')
    end.

Definition try_catch {A : Type} (m : Task A) (handler : thrown -> Task A) : Task A :=
  fun r =>
    match m r with
    | (Done a, r') => (Done a, r')
    | (Raised t, r') => handler t r'
    end.

Definition try_finally {A : Type} (m : Task A) (cleanup : Task unit) : Task A :=
  fun r =>
    match m r with
    | (c, r') =>
        match cleanup r' with
        | (Done _, r'') => (c, r'')
        | (Raised t, r'') => (Raised t, r'')
        end
    end.

Declare Scope task_scope.
Delimit Scope task_scope with task.
Notation "'let*' x ':=' m 'in' k" := (bind m (fun x => k))
  (at level 10, x name, m at level 100, k at level 200) : task_scope.
Notation "m ';;' k" := (bind m (fun _ => k))
  (at level 100, k at level 200, right associativity) : task_scope.

(** [await p] for a promise that settles as [p]. *)
Definition await {A : Type} (p : thrown + A) : Task A :=
  fun r =>
    (match p with inl t => Raised t | inr a => Done a end,
     {| cells := cells r; suspended := suspended r ++ [cells r] |}).

Definition setWeather (v : option payload) : Task unit :=
  fun r =>
    (Done tt,
     {| cells := {| weather := v; loading := loading (cells r); error := error (cells r) |};
        suspended := suspended r |}).

Definition setLoading (v : bool) : Task unit :=
  fun r =>
    (Done tt,
     {| cells := {| weather := weather (cells r); loading := v; error := error (cells r) |};
        suspended := suspended r |}).

Definition setError (v : option string) : Task unit :=
  fun r =>
    (Done tt,
     {| cells := {| weather := weather (cells r); loading := loading (cells r); error := v |};
        suspended := suspended r |}).

(** [errorData.message]: the error document has one, the weather document
    has no such property. *)
Definition message_of (errorData : payload) : option string :=
  match errorData with
  | ErrorBody e => Some (ErrorResponse.message e)
  | WeatherBody _ => None
  end.

(** [err instanceof Error ? err.message : 'An unexpected error occurred'] *)
Definition message_for (err : thrown) : string :=
  match err with
  | Error message => message
  | NotAnError => "An unexpected error occurred"
  end.

Definition fetchRandomWeather (fetch : thrown + Reply) : Task unit :=
  (setLoading true ;;
   setError None ;;
   try_finally
     (try_catch
        (let* response := await fetch in
         (if negb (ok response) then
            let* errorData := await (json_result response) in
            throw (Error (match truthy (message_of errorData) with
                          | Some message => message
                          | None => "Failed to fetch weather data"
                          end))
          else ret tt) ;;
         let* data := await (json_result response) in
         setWeather (Some data))
        (fun err =>
           setError (Some (message_for err)) ;;
           setWeather None))
     (setLoading false))%task.

Definition getTemperatureColor (temp : number) : string :=
  if number_le temp 0%Q then "#60a5fa"
  else if number_le temp 10%Q then "#22d3ee"
  else if number_le temp 20%Q then "#4ade80"
  else if number_le temp 30%Q then "#fbbf24"
  else "#f87171".

Definition getWindDescription (speed : number) : string :=
  if number_lt speed 5%Q then "Calm"
  else if number_lt speed 15%Q then "Light breeze"
  else if number_lt speed 30%Q then "Moderate wind"
  else if number_lt speed 50%Q then "Strong wind"
  else "Very strong wind".

(** A cell that is not [null]. *)
Definition present {A : Type} (v : option A) : bool :=
  match v with
  | Some _ => true
  | None => false
  end.

(** The conditional parts of the JSX returned by [App]: the state of the
    button and which of the three cards are on screen, with what they
    show. *)
Record View : Type := mkView {
  button_disabled : bool;
  button_label : string;
  error_card : option string;
  weather_results : option payload;
  welcome_card : bool
}.

Definition render (c : Component) : View :=
  {| button_disabled := loading c;
     button_label := if loading c then "Finding a city..." else "Get Random Weather";
     error_card := truthy (error c);
     weather_results := if negb (loading c) then weather c else None;
     welcome_card :=
       negb (present (weather c)) && negb (loading c)
       && negb (present (truthy (error c))) |}.

(** A click on the button: nothing when the button is disabled, otherwise
    [fetchRandomWeather] run to completion against the reply [fetch]. *)
Definition click (fetch : thrown + Reply) (c : Component) : Component :=
  if button_disabled (render c) then c
  else cells (snd (fetchRandomWeather fetch {| cells := c; suspended := [] |})).

End App.

(** What the browser receives when the handler answered [r]: Express
    serialises the body and [response.json()] parses it back. *)
Definition delivered (r : HttpResponse) : App.Reply :=
  {| App.status := statusCode r; App.json_result := inr (body r) |}.

(** Every call to the weather service comes directly after a geocoding
    call for the same coordinates. *)
Definition geocoded_first (t : list event) : Prop :=
  forall i latitude longitude ms,
    t !! i = Some (Fetched (open_meteo_forecast latitude longitude) ms) ->
    ms = 10000 /\
    exists j, i = S j /\
              t !! j = Some (Fetched (nominatim_reverse latitude longitude) 10000).

(** Attempt [k] drew a city and its geocoding call returned a location. *)
Definition geocoded (w : World) (cities : list City.t) (k : nat) : bool :=
  match city_at w cities k with
  | Some city =>
      match geocoding_at w k city with
      | Normal (Some _) => true
      | _ => false
      end
  | None => false
  end.


(** Every geocoding call of the trace is either the second event of the
    request, right after the first draw, or comes right after a sleep of
    [retryDelay] and a draw. *)
Definition paced (t : list event) : Prop :=
  forall i latitude longitude ms,
    t !! i = Some (Fetched (nominatim_reverse latitude longitude) ms) ->
    exists r,
      (i = 1%nat /\ t !! 0%nat = Some (Drew r)) \/
      (exists j, i = S (S j) /\
                 t !! j = Some (Slept retryDelay) /\
                 t !! S j = Some (Drew r)).

(** * Properties *)

(** Unfolding the monad down to pairs of a completion and a state. *)
Ltac run_async :=
  cbv beta iota zeta delta
    [bind ret throw try_catch try_finally settle json emit clearTimeout sleep random
     fetchWithTimeout fetch_nominatim fetch_open_meteo at_attempt
     draws trace fst snd].

(** Flattening the states built by [emit]. *)
Ltac tidy_state :=
  unfold emit; cbn [draws trace]; rewrite <- ?app_assoc; cbn [app].

Section ServerFacts.

Variable w : World.
Variable cities : list City.t.

(** ** Each client makes exactly one call *)

Lemma reverseGeocode_run (latitude longitude : number) (s : state) :
  reverseGeocode w latitude longitude s =
  (at_attempt (draws s) (reverseGeocode w latitude longitude),
   emit (Fetched (nominatim_reverse latitude longitude) 10000) s).
Proof.
  destruct s as [k t]. unfold reverseGeocode. run_async.
  destruct (nominatim w k latitude longitude) as [e | r]; [reflexivity |].
  destruct (ok r); simpl; [| reflexivity].
  destruct (json_result r) as [e | data]; [reflexivity |].
  destruct (truthy (NominatimResponse.display_name data)); [| reflexivity].
  destruct (truthy _); reflexivity.
Qed.

Lemma fetchWeather_run (latitude longitude : number) (s : state) :
  fetchWeather w latitude longitude s =
  (at_attempt (draws s) (fetchWeather w latitude longitude),
   emit (Fetched (open_meteo_forecast latitude longitude) 10000) s).
Proof.
  destruct s as [k t]. unfold fetchWeather. run_async.
  destruct (open_meteo w k latitude longitude) as [e | r]; [reflexivity |].
  destruct (ok r); simpl; [| reflexivity].
  destruct (json_result r) as [e | data]; reflexivity.
Qed.

Lemma getRandomCity_run (s : state) :
  getRandomCity w cities s =
  (Normal (city_at w cities (S (draws s))),
   {| draws := S (draws s); trace := trace s ++ [Drew (Math_random w (S (draws s)))] |}).
Proof. reflexivity. Qed.

Lemma retry_run (k : nat) (continue : Async HttpResponse) (s : state) :
  retry k continue s =
  continue {| draws := draws s; trace := trace s ++ pause k |}.
Proof.
  unfold retry, pause. run_async.
  destruct (k <? maxAttempts)%nat; [reflexivity |].
  rewrite app_nil_r. destruct s; reflexivity.
Qed.

(** ** One iteration of the loop, by verdict *)

Lemma after_one (s : state) (k : nat) :
  after w cities s k 1 =
  {| draws := S (draws s); trace := trace s ++ attempt_events w cities k |}.
Proof.
  unfold after. simpl. rewrite app_nil_r. f_equal. lia.
Qed.

Lemma iteration_failed (continue : Async HttpResponse) (s : state) :
  let k := S (draws s) in
  failed w cities k = true ->
  iteration w cities k continue s = continue (after w cities s k 1).
Proof.
  intros k Hk. rewrite after_one. fold k.
  unfold failed in Hk. unfold attempt_events.
  unfold iteration, bind. rewrite getRandomCity_run. fold k.
  unfold verdict_at in *.
  destruct (city_at w cities k) as [city |]; [| discriminate].
  rewrite reverseGeocode_run. cbn [draws].
  unfold geocoding_at in *.
  destruct (at_attempt k (reverseGeocode w _ _)) as [[g |] | e]; [| | discriminate].
  - rewrite fetchWeather_run. cbn [draws emit trace].
    unfold weather_at in *.
    destruct (at_attempt k (fetchWeather w _ _)) as [[d |] | e]; [| | discriminate].
    + destruct (OpenMeteoResponse.current d), (OpenMeteoResponse.hourly d);
        try discriminate; rewrite retry_run; tidy_state; reflexivity.
    + rewrite retry_run; tidy_state; reflexivity.
  - rewrite retry_run. tidy_state. reflexivity.
Qed.

Lemma iteration_success (continue : Async HttpResponse) (s : state)
    (city : City.t) (geoResult : GeoResult.t) (weatherData : OpenMeteoResponse.t)
    (current : Current.t) (hourly : Hourly.t) :
  let k := S (draws s) in
  verdict_at w cities k = Success city geoResult weatherData current hourly ->
  iteration w cities k continue s =
  (Normal (res_json res (WeatherBody (response city geoResult weatherData current hourly))),
   after w cities s k 1).
Proof.
  intros k Hk. rewrite after_one. fold k.
  unfold attempt_events. rewrite Hk.
  unfold iteration, bind. rewrite getRandomCity_run. fold k.
  unfold verdict_at in Hk.
  destruct (city_at w cities k) as [c |]; [| discriminate].
  rewrite reverseGeocode_run. cbn [draws].
  unfold geocoding_at in Hk.
  destruct (at_attempt k (reverseGeocode w _ _)) as [[g |] | e]; try discriminate.
  rewrite fetchWeather_run. cbn [draws emit trace].
  unfold weather_at in Hk.
  destruct (at_attempt k (fetchWeather w _ _)) as [[d |] | e]; try discriminate.
  destruct (OpenMeteoResponse.current d) as [cur |] eqn:Hcur; try discriminate.
  destruct (OpenMeteoResponse.hourly d) as [h |] eqn:Hh; try discriminate.
  injection Hk as -> -> -> -> ->.
  unfold ret. tidy_state. reflexivity.
Qed.

Lemma iteration_crash (continue : Async HttpResponse) (s : state) :
  let k := S (draws s) in
  verdict_at w cities k = Crash ->
  exists e s', iteration w cities k continue s = (Throws e, s').
Proof.
  intros k Hk.
  unfold iteration, bind. rewrite getRandomCity_run. fold k.
  unfold verdict_at in Hk.
  destruct (city_at w cities k) as [c |]; [| unfold throw; eauto].
  rewrite reverseGeocode_run. cbn [draws].
  unfold geocoding_at in Hk.
  destruct (at_attempt k (reverseGeocode w _ _)) as [[g |] | e]; try discriminate; [| eauto].
  rewrite fetchWeather_run. cbn [draws emit trace].
  unfold weather_at in Hk.
  destruct (at_attempt k (fetchWeather w _ _)) as [[d |] | e]; try discriminate; [| eauto].
  destruct (OpenMeteoResponse.current d), (OpenMeteoResponse.hourly d); discriminate.
Qed.

(** ** The loop *)

Lemma for_attempts_step (attempt : nat) :
  for_attempts w cities attempt =
  if (attempt <=? maxAttempts)%nat
  then iteration w cities attempt (for_attempts w cities (S attempt))
  else ret (res_json (res_status res 503) (ErrorBody unavailable)).
Proof.
  rewrite for_attempts_equation_1.
  destruct (le_gt_dec attempt maxAttempts) as [Hle | Hgt]; simpl.
  - apply Nat.leb_le in Hle. rewrite Hle. reflexivity.
  - apply Nat.leb_gt in Hgt. rewrite Hgt. reflexivity.
Qed.

Lemma after_zero (s : state) (a : nat) : after w cities s a 0 = s.
Proof.
  destruct s as [k t]. unfold after. simpl. rewrite app_nil_r. f_equal. lia.
Qed.

Lemma after_after (s : state) (a n m : nat) :
  after w cities (after w cities s a n) (a + n) m = after w cities s a (n + m).
Proof.
  unfold after. cbn [draws trace].
  rewrite seq_app, flat_map_app, <- app_assoc. f_equal. lia.
Qed.

Lemma failed_verdict (k : nat) :
  failed w cities k = true <->
  (exists city, verdict_at w cities k = GeocodingFailed city) \/
  (exists city geoResult, verdict_at w cities k = WeatherFailed city geoResult).
Proof.
  unfold failed. destruct (verdict_at w cities k); split; intros H;
    try discriminate; eauto;
    destruct H as [[? H] | [? [? H]]]; discriminate.
Qed.

(** Every run of the loop from attempt [a] is of exactly one of three
    shapes: all the remaining attempts fail and the loop falls through to
    the 503; or some attempt [k] is the first that does not fail, and it
    either succeeds (200, nothing runs after it) or throws. *)
Lemma for_attempts_run (n : nat) :
  forall (a : nat) (s : state),
    (a + n = S maxAttempts)%nat ->
    a = S (draws s) ->
    ((forall j, (a <= j <= maxAttempts)%nat -> failed w cities j = true) /\
     for_attempts w cities a s =
     (Normal {| statusCode := 503; body := ErrorBody unavailable |},
      after w cities s a n))
    \/
    (exists k,
        (a <= k <= maxAttempts)%nat /\
        (forall j, (a <= j < k)%nat -> failed w cities j = true) /\
        ((exists city geoResult weatherData current hourly,
             verdict_at w cities k = Success city geoResult weatherData current hourly /\
             for_attempts w cities a s =
             (Normal {| statusCode := 200;
                        body := WeatherBody
                                  (response city geoResult weatherData current hourly) |},
              after w cities s a (S k - a)))
         \/
         (verdict_at w cities k = Crash /\
          exists e s', for_attempts w cities a s = (Throws e, s')))).
Proof.
  induction n as [| n IH]; intros a s Hn Ha.
  - left. split; [intros j Hj; lia |].
    rewrite for_attempts_step.
    replace (a <=? maxAttempts)%nat with false by (symmetry; apply Nat.leb_gt; lia).
    rewrite after_zero. reflexivity.
  - rewrite for_attempts_step.
    replace (a <=? maxAttempts)%nat with true by (symmetry; apply Nat.leb_le; lia).
    destruct (failed w cities a) eqn:Hf.
    + subst a. rewrite iteration_failed by exact Hf.
      set (a := S (draws s)) in *.
      destruct (IH (S a) (after w cities s a 1)) as [[Hall Hrun] | (k & Hk & Hbefore & Hrun)].
      * lia.
      * unfold after. cbn [draws]. lia.
      * left. split.
        -- intros j Hj. destruct (Nat.eq_dec j a) as [-> | Hne]; [exact Hf |].
           apply Hall. lia.
        -- rewrite Hrun. f_equal.
           replace (S a) with (a + 1)%nat by lia.
           rewrite after_after. reflexivity.
      * right. exists k. split; [lia |]. split.
        -- intros j Hj. destruct (Nat.eq_dec j a) as [-> | Hne]; [exact Hf |].
           apply Hbefore. lia.
        -- destruct Hrun as [(c & g & d & cur & h & Hv & Hrun) | [Hv Hrun]].
           ++ left. exists c, g, d, cur, h. split; [exact Hv |].
              rewrite Hrun. f_equal.
              replace (S a) with (a + 1)%nat by lia.
              rewrite after_after. f_equal. lia.
           ++ right. split; [exact Hv | exact Hrun].
    + right. exists a. split; [lia |]. split; [intros j Hj; lia |].
      unfold failed in Hf.
      destruct (verdict_at w cities a) as [| c | c g | c g d cur h] eqn:Hv;
        try discriminate.
      * right. split; [reflexivity |]. subst a.
        apply iteration_crash. exact Hv.
      * left. exists c, g, d, cur, h. split; [reflexivity |]. subst a.
        rewrite (iteration_success _ s c g d cur h) by exact Hv.
        replace (S (S (draws s)) - S (draws s))%nat with 1%nat by lia.
        reflexivity.
Qed.

(** ** The clients never throw *)

Lemma reverseGeocode_returns (k : nat) (latitude longitude : number) :
  exists r, at_attempt k (reverseGeocode w latitude longitude) = Normal r.
Proof.
  unfold reverseGeocode. run_async.
  destruct (nominatim w k latitude longitude) as [e | r]; [eauto |].
  destruct (ok r); simpl; [| eauto].
  destruct (json_result r) as [e | data]; [eauto |].
  destruct (truthy (NominatimResponse.display_name data)); [| eauto].
  destruct (truthy _); eauto.
Qed.

Lemma fetchWeather_returns (k : nat) (latitude longitude : number) :
  exists r, at_attempt k (fetchWeather w latitude longitude) = Normal r.
Proof.
  unfold fetchWeather. run_async.
  destruct (open_meteo w k latitude longitude) as [e | r]; [eauto |].
  destruct (ok r); simpl; [| eauto].
  destruct (json_result r) as [e | data]; eauto.
Qed.

(** ** The random index stays inside the array *)






(** ** A whole request *)

Lemma randomWeather_run :
  ((forall j, (1 <= j <= maxAttempts)%nat -> failed w cities j = true) /\
   randomWeather w cities idle =
   (Normal {| statusCode := 503; body := ErrorBody unavailable |},
    after w cities idle 1 maxAttempts))
  \/
  (exists k,
      (1 <= k <= maxAttempts)%nat /\
      (forall j, (1 <= j < k)%nat -> failed w cities j = true) /\
      ((exists city geoResult weatherData current hourly,
           verdict_at w cities k = Success city geoResult weatherData current hourly /\
           randomWeather w cities idle =
           (Normal {| statusCode := 200;
                      body := WeatherBody
                                (response city geoResult weatherData current hourly) |},
            after w cities idle 1 k))
       \/
       (verdict_at w cities k = Crash /\
        exists e s', randomWeather w cities idle = (Throws e, s')))).
Proof.
  unfold randomWeather.
  destruct (for_attempts_run maxAttempts 1 idle) as [H | (k & Hk & Hbefore & H)];
    [reflexivity | reflexivity | left; exact H |].
  right. exists k. split; [exact Hk |]. split; [exact Hbefore |].
  destruct H as [(c & g & d & cur & h & Hv & Hrun) | H]; [left | right; exact H].
  exists c, g, d, cur, h. split; [exact Hv |].
  rewrite Hrun. do 2 f_equal. lia.
Qed.




(** A 200 is always the response assembled by the first attempt that
    does not fail. *)
Lemma randomWeather_200 (r : HttpResponse) (s' : state) :
  randomWeather w cities idle = (Normal r, s') ->
  statusCode r = 200 ->
  exists k city geoResult weatherData current hourly,
    (1 <= k <= maxAttempts)%nat /\
    (forall j, (1 <= j < k)%nat -> failed w cities j = true) /\
    verdict_at w cities k = Success city geoResult weatherData current hourly /\
    r = {| statusCode := 200;
           body := WeatherBody (response city geoResult weatherData current hourly) |} /\
    s' = after w cities idle 1 k.
Proof.
  intros Hrun H200.
  destruct randomWeather_run as [[_ H] | (k & Hk & Hbefore & H)].
  - rewrite H in Hrun. injection Hrun as <- <-. discriminate.
  - destruct H as [(c & g & d & cur & h & Hv & H) | [_ (e & s'' & H)]].
    + rewrite H in Hrun. injection Hrun as <- <-.
      exists k, c, g, d, cur, h. auto.
    + rewrite H in Hrun. discriminate.
Qed.

(** ** Counting the effects of a run *)

Lemma sleeps_app (t1 t2 : list event) : sleeps (t1 ++ t2) = sleeps t1 ++ sleeps t2.
Proof. apply omap_app. Qed.

Lemma drawn_app (t1 t2 : list event) : drawn (t1 ++ t2) = drawn t1 ++ drawn t2.
Proof. apply omap_app. Qed.

Lemma calls_app (t1 t2 : list event) : calls (t1 ++ t2) = calls t1 ++ calls t2.
Proof. apply omap_app. Qed.




Lemma drawn_attempt (k : nat) :
  drawn (attempt_events w cities k) = [Math_random w k].
Proof.
  unfold attempt_events, pause.
  destruct (verdict_at w cities k); try reflexivity;
    destruct (k <? maxAttempts)%nat; reflexivity.
Qed.


Lemma flat_map_seq_snoc {B : Type} (f : nat -> list B) (a n : nat) :
  flat_map f (seq a (S n)) = flat_map f (seq a n) ++ f (a + n)%nat.
Proof.
  rewrite seq_S, flat_map_app. simpl. rewrite app_nil_r. reflexivity.
Qed.


Lemma drawn_run (a n : nat) :
  drawn (flat_map (attempt_events w cities) (seq a n)) = Math_random w <$> seq a n.
Proof.
  revert a. induction n as [| n IH]; intros a; [reflexivity |].
  cbn [seq flat_map fmap list_fmap]. rewrite drawn_app, drawn_attempt, IH. reflexivity.
Qed.



End ServerFacts.

(** * Statements of the specification *)








(** ** The hourly forecast *)

Lemma hourlyForecast_lookup (hourly : Hourly.t) (i : nat) :
  hourlyForecast hourly !! i =
  if decide (i < 24)%nat then
    (fun time =>
       {| HourlyForecast.time := time;
          HourlyForecast.temperature := Hourly.temperature_2m hourly !! i;
          HourlyForecast.windSpeed := Hourly.wind_speed_10m hourly !! i |})
      <$> Hourly.time hourly !! i
  else None.
Proof.
  unfold hourlyForecast. rewrite list_lookup_imap, lookup_take.
  destruct (decide (i < 24)%nat); reflexivity.
Qed.





(** ** The chosen place *)



(** ** The two clients *)

(** C7.  [reverseGeocode] never throws.  It returns [null] when the call
    times out or fails in transport, when the status is not 2xx, when the
    body is not JSON, and when the display name or the country is absent;
    it returns [{displayName, country}] only for a 2xx response whose
    document has both fields, and then with those two values.  It issues
    exactly one outbound call, with a timeout of 10000 ms. *)
Theorem reverseGeocode_none_or_both_fields (w : World) (latitude longitude : number)
    (s : state) :
  let answer := nominatim w (draws s) latitude longitude in
  let result := fst (reverseGeocode w latitude longitude s) in
  (exists r, result = Normal r) /\
  (answer = inl AbortError -> result = Normal None) /\
  (forall e, answer = inl e -> result = Normal None) /\
  (forall response, answer = inr response ->
     (status response < 200 \/ 299 < status response) -> result = Normal None) /\
  (forall response e, answer = inr response ->
     json_result response = inl e -> result = Normal None) /\
  (forall response data, answer = inr response ->
     json_result response = inr data ->
     (NominatimResponse.display_name data = None \/
      NominatimResponse.address data = None \/
      (exists address, NominatimResponse.address data = Some address /\
                       Address.country address = None)) ->
     result = Normal None) /\
  (forall geoResult, result = Normal (Some geoResult) ->
     exists response data address,
       answer = inr response /\
       200 <= status response <= 299 /\
       json_result response = inr data /\
       NominatimResponse.display_name data = Some (GeoResult.displayName geoResult) /\
       NominatimResponse.address data = Some address /\
       Address.country address = Some (GeoResult.country geoResult)) /\
  snd (reverseGeocode w latitude longitude s) =
  emit (Fetched (nominatim_reverse latitude longitude) 10000) s.
Proof.
  destruct s as [k t]. intros answer result. cbn [draws] in answer.
  assert (Hsnd : snd (reverseGeocode w latitude longitude {| draws := k; trace := t |}) =
                 emit (Fetched (nominatim_reverse latitude longitude) 10000)
                      {| draws := k; trace := t |})
    by (rewrite reverseGeocode_run; reflexivity).
  assert (Hres : result =
                 match answer with
                 | inl _ => Normal None
                 | inr response =>
                     if ok response then
                       match json_result response with
                       | inl _ => Normal None
                       | inr data =>
                           match truthy (NominatimResponse.display_name data),
                                 truthy (NominatimResponse.address data ≫= Address.country)
                           with
                           | Some display_name, Some country =>
                               Normal (Some {| GeoResult.displayName := display_name;
                                               GeoResult.country := country |})
                           | _, _ => Normal None
                           end
                       end
                     else Normal None
                 end).
  { subst result answer. unfold reverseGeocode. run_async.
    destruct (nominatim w k latitude longitude) as [e | r]; [reflexivity |].
    destruct (ok r); simpl; [| reflexivity].
    destruct (json_result r) as [e | data]; [reflexivity |].
    destruct (truthy (NominatimResponse.display_name data)); [| reflexivity].
    destruct (truthy _); reflexivity. }
  clearbody result answer.
  split; [| split; [| split; [| split; [| split; [| split; [| split]]]]]].
  - rewrite Hres. destruct answer as [e | r]; [eauto |].
    destruct (ok r); [| eauto]. destruct (json_result r) as [e | data]; [eauto |].
    destruct (truthy (NominatimResponse.display_name data)); [| eauto].
    destruct (truthy _); eauto.
  - intros ->. exact Hres.
  - intros e ->. exact Hres.
  - intros r -> Hstatus. rewrite Hres.
    replace (ok r) with false; [reflexivity |].
    symmetry. unfold ok. apply andb_false_iff.
    destruct Hstatus; [left; apply Z.leb_gt | right; apply Z.leb_gt]; assumption.
  - intros r e -> He. rewrite Hres, He. destruct (ok r); reflexivity.
  - intros r data -> Hd Hmissing. rewrite Hres, Hd.
    destruct (ok r); [| reflexivity].
    destruct Hmissing as [-> | [-> | (a & -> & Ha)]].
    + reflexivity.
    + destruct (truthy (NominatimResponse.display_name data)); reflexivity.
    + cbn [mbind option_bind]. rewrite Ha.
      destruct (truthy (NominatimResponse.display_name data)); reflexivity.
  - intros g Hg. rewrite Hres in Hg.
    destruct answer as [e | r]; [discriminate |].
    destruct (ok r) eqn:Hok; [| discriminate].
    destruct (json_result r) as [e | data] eqn:Hd; [discriminate |].
    destruct (NominatimResponse.display_name data) as [dn |] eqn:Hdn; [| discriminate].
    destruct (NominatimResponse.address data) as [a |] eqn:Ha;
      [| cbn in Hg; destruct (String.eqb dn ""); discriminate].
    cbn [mbind option_bind] in Hg.
    destruct (Address.country a) as [c |] eqn:Hc;
      [| cbn in Hg; destruct (String.eqb dn ""); discriminate].
    cbn [truthy] in Hg.
    destruct (String.eqb dn ""); [discriminate |].
    destruct (String.eqb c ""); [discriminate |].
    injection Hg as <-. exists r, data, a.
    unfold ok in Hok. apply andb_true_iff in Hok as [Hlo Hhi].
    apply Z.leb_le in Hlo, Hhi. cbn [GeoResult.displayName GeoResult.country].
    repeat split; assumption.
  - exact Hsnd.
Qed.

(** C6, as stated, fails for the missing sections: on a 2xx response whose
    document has no [hourly] section, [fetchWeather] returns that document,
    not [null]. *)
Lemma fetchWeather_keeps_document_without_hourly :
  open_meteo hourless 0 10%Q 20%Q = inr (mkResponse 200 (inr no_hourly)) /\
  OpenMeteoResponse.hourly no_hourly = None /\
  fst (fetchWeather hourless 10%Q 20%Q idle) = Normal (Some no_hourly) /\
  fst (fetchWeather hourless 10%Q 20%Q idle) <> Normal None.
Proof.
  repeat split; try reflexivity. vm_compute. discriminate.
Qed.

(** C6, amended.  [fetchWeather] never throws and issues one call with a
    timeout of 10000 ms.  It returns [null] when the call times out or
    fails in transport, when the status is not 2xx and when the body is not
    JSON; for a 2xx response with a JSON document it returns the document
    as it is, with or without its [current] and [hourly] sections.  The
    missing sections are caught by the guard of the request handler: an
    attempt whose weather document lacks [current] or [hourly] goes to the
    same retry branch (sleep unless last, then next attempt) as an attempt
    whose [fetchWeather] returned [null]. *)
Theorem fetchWeather_none_on_failed_call (w : World) (cities : list City.t)
    (latitude longitude : number) (s : state) :
  let answer := open_meteo w (draws s) latitude longitude in
  let result := fst (fetchWeather w latitude longitude s) in
  (exists r, result = Normal r) /\
  (forall e, answer = inl e -> result = Normal None) /\
  (forall response, answer = inr response ->
     (status response < 200 \/ 299 < status response) -> result = Normal None) /\
  (forall response e, answer = inr response ->
     json_result response = inl e -> result = Normal None) /\
  (forall response data, answer = inr response ->
     200 <= status response <= 299 ->
     json_result response = inr data -> result = Normal (Some data)) /\
  snd (fetchWeather w latitude longitude s) =
  emit (Fetched (open_meteo_forecast latitude longitude) 10000) s /\
  (forall (continue : Async HttpResponse) city geoResult weatherData,
     let k := S (draws s) in
     city_at w cities k = Some city ->
     geocoding_at w k city = Normal (Some geoResult) ->
     (weather_at w k city = Normal None \/
      (weather_at w k city = Normal (Some weatherData) /\
       (OpenMeteoResponse.current weatherData = None \/
        OpenMeteoResponse.hourly weatherData = None))) ->
     iteration w cities k continue s =
     retry k continue
       {| draws := k;
          trace := trace s ++ [Drew (Math_random w k); geocoding_call city;
                               weather_call city] |}).
Proof.
  destruct s as [k0 t]. intros answer result. cbn [draws] in answer.
  assert (Hres : result =
                 match answer with
                 | inl _ => Normal None
                 | inr response =>
                     if ok response then
                       match json_result response with
                       | inl _ => Normal None
                       | inr data => Normal (Some data)
                       end
                     else Normal None
                 end).
  { subst result answer. unfold fetchWeather. run_async.
    destruct (open_meteo w k0 latitude longitude) as [e | r]; [reflexivity |].
    destruct (ok r); simpl; [| reflexivity].
    destruct (json_result r) as [e | data]; reflexivity. }
  clearbody result answer.
  split; [| split; [| split; [| split; [| split; [| split]]]]].
  - rewrite Hres. destruct answer as [e | r]; [eauto |].
    destruct (ok r); [| eauto]. destruct (json_result r); eauto.
  - intros e ->. exact Hres.
  - intros r -> Hstatus. rewrite Hres.
    replace (ok r) with false; [reflexivity |].
    symmetry. unfold ok. apply andb_false_iff.
    destruct Hstatus; [left; apply Z.leb_gt | right; apply Z.leb_gt]; assumption.
  - intros r e -> He. rewrite Hres, He. destruct (ok r); reflexivity.
  - intros r data -> [Hlo Hhi] Hd. rewrite Hres, Hd.
    replace (ok r) with true; [reflexivity |].
    symmetry. unfold ok. apply andb_true_iff. split; apply Z.leb_le; assumption.
  - rewrite fetchWeather_run. reflexivity.
  - intros continue city g d k Hcity Hg Hw.
    unfold iteration, bind. rewrite getRandomCity_run. cbn [draws trace] in *.
    fold k. rewrite Hcity, reverseGeocode_run. cbn [draws].
    unfold geocoding_at in Hg. rewrite Hg.
    rewrite fetchWeather_run. cbn [draws emit trace].
    unfold weather_at in Hw. unfold geocoding_call, weather_call.
    destruct Hw as [-> | [-> Hmissing]].
    + tidy_state. reflexivity.
    + tidy_state.
      destruct Hmissing as [-> | ->]; [reflexivity |].
      destruct (OpenMeteoResponse.current d); reflexivity.
Qed.

Lemma fetchWeather_none_on_failed_call_witness :
  iteration hourless [Testville] 1 (ret fair_answer) idle =
  retry 1 (ret fair_answer)
    {| draws := 1;
       trace := [Drew (1 # 2)%Q; geocoding_call Testville; weather_call Testville] |}.
Proof.
  refine (proj2 (proj2 (proj2 (proj2 (proj2 (proj2
            (fetchWeather_none_on_failed_call hourless [Testville] 10%Q 20%Q idle))))))
          (ret fair_answer) Testville testville_result no_hourly _ _ _).
  - reflexivity.
  - vm_compute. reflexivity.
  - right. split; [vm_compute; reflexivity | right; reflexivity].
Defined.

(** ** Start-up *)



(** ** The fixed fields *)

(** C9.  In every 200 response the unit and attribution fields are
    literals of the handler, the same for every city and every upstream
    answer: [windSpeedUnit] is "km/h" and the two [dataSources] strings are
    the fixed attributions.  The literal for [temperatureUnit], however, is
    the six-byte text "¬∞C" (the degree sign decoded in the wrong
    character set), not the three-byte "°C" that the README documents. *)
Theorem fixed_fields_of_every_answer (w : World) (cities : list City.t)
    (r : HttpResponse) (s' : state) :
  randomWeather w cities idle = (Normal r, s') ->
  statusCode r = 200 ->
  exists answer,
    body r = WeatherBody answer /\
    let current := Forecast.current (WeatherResponse.forecast answer) in
    let dataSources := WeatherResponse.dataSources answer in
    CurrentForecast.temperatureUnit current = "¬∞C" /\
    String.length (CurrentForecast.temperatureUnit current) = 6%nat /\
    CurrentForecast.temperatureUnit current <> "°C" /\
    CurrentForecast.windSpeedUnit current = "km/h" /\
    DataSources.geocoding dataSources =
    "OpenStreetMap Nominatim (https://nominatim.openstreetmap.org)" /\
    DataSources.weather dataSources = "Open-Meteo (https://open-meteo.com)".
Proof.
  intros Hrun H200.
  destruct (randomWeather_200 w cities r s' Hrun H200)
    as (k & c & g & d & cur & h & _ & _ & _ & -> & _).
  exists (response c g d cur h). split; [reflexivity |].
  cbn. repeat split. discriminate.
Qed.

Lemma fixed_fields_of_every_answer_witness :
  exists answer,
    body fair_answer = WeatherBody answer /\
    let current := Forecast.current (WeatherResponse.forecast answer) in
    let dataSources := WeatherResponse.dataSources answer in
    CurrentForecast.temperatureUnit current = "¬∞C" /\
    String.length (CurrentForecast.temperatureUnit current) = 6%nat /\
    CurrentForecast.temperatureUnit current <> "°C" /\
    CurrentForecast.windSpeedUnit current = "km/h" /\
    DataSources.geocoding dataSources =
    "OpenStreetMap Nominatim (https://nominatim.openstreetmap.org)" /\
    DataSources.weather dataSources = "Open-Meteo (https://open-meteo.com)".
Proof.
  apply (fixed_fields_of_every_answer fair [Testville] fair_answer
           (snd (randomWeather fair [Testville] idle))).
  - vm_compute. reflexivity.
  - reflexivity.
Defined.

(** ** The city store *)



(** * Further properties of the server *)

Section RequestFacts.

Variable w : World.
Variable cities : list City.t.

(** ** The only exception of the handler *)

Lemma crash_iff_no_city (k : nat) :
  verdict_at w cities k = Crash <-> city_at w cities k = None.
Proof.
  unfold verdict_at, geocoding_at, weather_at.
  destruct (city_at w cities k) as [city |]; [| tauto].
  destruct (reverseGeocode_returns w k (City.latitude city) (City.longitude city))
    as [g ->].
  destruct (fetchWeather_returns w k (City.latitude city) (City.longitude city))
    as [d ->].
  split; [| discriminate].
  destruct g as [g |]; [| discriminate].
  destruct d as [d |]; [| discriminate].
  destruct (OpenMeteoResponse.current d), (OpenMeteoResponse.hourly d); discriminate.
Qed.

Lemma iteration_no_city (continue : Async HttpResponse) (s : state) :
  let k := S (draws s) in
  city_at w cities k = None ->
  iteration w cities k continue s = (Throws TypeError, after w cities s k 1).
Proof.
  intros k Hk. rewrite after_one. fold k.
  unfold attempt_events. rewrite (proj2 (crash_iff_no_city k) Hk).
  unfold iteration, bind. rewrite getRandomCity_run. fold k. rewrite Hk.
  reflexivity.
Qed.

Lemma for_attempts_no_city (n : nat) :
  forall (a : nat) (s : state) (k : nat),
    (a + n = S maxAttempts)%nat ->
    a = S (draws s) ->
    (a <= k <= maxAttempts)%nat ->
    (forall j, (a <= j < k)%nat -> failed w cities j = true) ->
    city_at w cities k = None ->
    for_attempts w cities a s = (Throws TypeError, after w cities s a (S k - a)).
Proof.
  induction n as [| n IH]; intros a s k Hn Ha Hk Hbefore Hnone; [lia |].
  rewrite for_attempts_step.
  replace (a <=? maxAttempts)%nat with true by (symmetry; apply Nat.leb_le; lia).
  destruct (Nat.eq_dec a k) as [-> | Hne].
  - subst k. rewrite iteration_no_city by exact Hnone.
    replace (S (S (draws s)) - S (draws s))%nat with 1%nat by lia. reflexivity.
  - assert (Hf : failed w cities a = true) by (apply Hbefore; lia).
    subst a. rewrite iteration_failed by exact Hf.
    set (a := S (draws s)) in *.
    rewrite (IH (S a) (after w cities s a 1) k).
    + replace (S a) with (a + 1)%nat by lia.
      rewrite after_after. do 2 f_equal. lia.
    + lia.
    + unfold after. cbn [draws]. lia.
    + lia.
    + intros j Hj. apply Hbefore. lia.
    + exact Hnone.
Qed.

(** Whatever the outcome, the request stops after some [m <= 10] attempts,
    all but the last of which failed, and its trace is the effects of
    those attempts. *)
Lemma randomWeather_final_state :
  exists m,
    (m <= maxAttempts)%nat /\
    snd (randomWeather w cities idle) = after w cities idle 1 m /\
    (forall j, (1 <= j < m)%nat -> failed w cities j = true) /\
    (forall e, fst (randomWeather w cities idle) = Throws e ->
               e = TypeError /\ (1 <= m)%nat /\ city_at w cities m = None).
Proof.
  destruct (randomWeather_run w cities) as [[Hall Hrun] | (k & Hk & Hbefore & H)].
  - exists maxAttempts. rewrite Hrun. split; [lia |]. split; [reflexivity |].
    split; [intros j Hj; apply Hall; lia | discriminate].
  - exists k. split; [lia |].
    destruct H as [(c & g & d & cur & h & Hv & Hrun) | [Hv _]].
    + rewrite Hrun. split; [reflexivity |]. split; [exact Hbefore | discriminate].
    + apply crash_iff_no_city in Hv.
      assert (Hrun : randomWeather w cities idle =
                     (Throws TypeError, after w cities idle 1 k)).
      { unfold randomWeather.
        rewrite (for_attempts_no_city maxAttempts 1 idle k);
          try reflexivity; try assumption.
        do 2 f_equal. lia. }
      rewrite Hrun. split; [reflexivity |]. split; [exact Hbefore |].
      intros e He. injection He as <-. split; [reflexivity |]. split; [lia | exact Hv].
Qed.

End RequestFacts.



(** ** Bounds on the effects of one request *)

Section EffectBounds.

Variable w : World.
Variable cities : list City.t.

Lemma sleeps_attempt (k : nat) :
  sleeps (attempt_events w cities k) = [] \/
  ((k < maxAttempts)%nat /\ sleeps (attempt_events w cities k) = [retryDelay]).
Proof.
  unfold attempt_events, pause.
  destruct (verdict_at w cities k); cbn [sleeps omap geocoding_call weather_call];
    try (left; reflexivity);
    destruct (k <? maxAttempts)%nat eqn:Hk; try (left; reflexivity);
    right; (split; [apply Nat.ltb_lt; exact Hk | reflexivity]).
Qed.

Lemma sleeps_run_bound (a n : nat) :
  exists c,
    sleeps (flat_map (attempt_events w cities) (seq a n)) = replicate c retryDelay /\
    (c <= Nat.min (a + n) maxAttempts - Nat.min a maxAttempts)%nat.
Proof.
  induction n as [| n (c & IH & Hc)].
  - exists 0%nat. split; [reflexivity | lia].
  - rewrite flat_map_seq_snoc, sleeps_app, IH.
    destruct (sleeps_attempt (a + n)) as [-> | [Hlt ->]].
    + exists c. rewrite app_nil_r. split; [reflexivity | lia].
    + exists (S c). rewrite replicate_S_end. split; [reflexivity | lia].
Qed.

Lemma calls_attempt (k : nat) :
  calls (attempt_events w cities k) = [] \/
  exists city,
    city_at w cities k = Some city /\
    (calls (attempt_events w cities k) =
     [nominatim_reverse (City.latitude city) (City.longitude city)] \/
     calls (attempt_events w cities k) =
     [nominatim_reverse (City.latitude city) (City.longitude city);
      open_meteo_forecast (City.latitude city) (City.longitude city)]).
Proof.
  unfold attempt_events, verdict_at, pause, geocoding_at, weather_at.
  destruct (city_at w cities k) as [city |]; [| left; reflexivity].
  right. exists city. split; [reflexivity |].
  destruct (reverseGeocode_returns w k (City.latitude city) (City.longitude city))
    as [g ->].
  destruct (fetchWeather_returns w k (City.latitude city) (City.longitude city))
    as [d ->].
  destruct g as [g |]; [| left; destruct (k <? maxAttempts)%nat; reflexivity].
  right. destruct d as [d |]; [| destruct (k <? maxAttempts)%nat; reflexivity].
  destruct (OpenMeteoResponse.current d), (OpenMeteoResponse.hourly d);
    try reflexivity; destruct (k <? maxAttempts)%nat; reflexivity.
Qed.

Lemma calls_run_bound (a n : nat) :
  let urls := calls (flat_map (attempt_events w cities) (seq a n)) in
  (length (filter (fun u => is_open_meteo u = true) urls) <=
   length (filter (fun u => is_nominatim u = true) urls) <= n)%nat.
Proof.
  revert a. induction n as [| n IH]; intros a; [cbn; lia |].
  cbn [seq flat_map]. cbv zeta in *.
  rewrite calls_app, !filter_app, !length_app.
  specialize (IH (S a)).
  destruct (calls_attempt a) as [-> | (city & _ & [-> | ->])]; cbn;
    repeat case_decide; try discriminate; cbn [length]; lia.
Qed.

End EffectBounds.

(** X2.  One request costs at most 10 city draws, 10 geocoding calls, 10
    weather calls and 9 sleeps, whatever the services answer and however
    the request ends (200, 503 or exception); every sleep lasts 1100 ms, so
    a request sleeps for at most 9900 ms in total, and the weather service
    is never called more often than the geocoding service. *)
Theorem request_effects_are_bounded (w : World) (cities : list City.t) :
  let s' := snd (randomWeather w cities idle) in
  let urls := calls (trace s') in
  (length (drawn (trace s')) = draws s' /\ draws s' <= maxAttempts)%nat /\
  (length (filter (fun u => is_open_meteo u = true) urls) <=
   length (filter (fun u => is_nominatim u = true) urls) <= maxAttempts)%nat /\
  (exists c, sleeps (trace s') = replicate c 1100 /\ (c <= 9)%nat) /\
  foldr Z.add 0 (sleeps (trace s')) <= 9900.
Proof.
  intros s' urls.
  destruct (randomWeather_final_state w cities) as (m & Hm & Hsnd & _).
  subst urls s'. rewrite Hsnd. unfold after. cbn [draws trace idle app].
  split; [| split; [| split]].
  - rewrite drawn_run, length_fmap, length_seq. split; [reflexivity | exact Hm].
  - pose proof (calls_run_bound w cities 1 m) as H. cbv zeta in H. lia.
  - destruct (sleeps_run_bound w cities 1 m) as (c & Hc & Hle).
    exists c. split; [exact Hc |]. unfold maxAttempts in *. lia.
  - destruct (sleeps_run_bound w cities 1 m) as (c & -> & Hle).
    assert (Hc : (c <= 9)%nat) by (unfold maxAttempts in *; lia).
    assert (Hsum : foldr Z.add 0 (replicate c retryDelay) = Z.of_nat c * 1100).
    { clear. induction c as [| c IH]; [reflexivity |].
      cbn [replicate foldr]. rewrite IH. unfold retryDelay. lia. }
    rewrite Hsum. lia.
Qed.

(** ** Order of the upstream calls *)

Lemma geocoded_first_app (t1 t2 : list event) :
  geocoded_first t1 -> geocoded_first t2 -> geocoded_first (t1 ++ t2).
Proof.
  intros H1 H2 i lat lon ms Hi.
  destruct (decide (i < length t1)%nat) as [Hlt | Hge].
  - rewrite lookup_app_l in Hi by exact Hlt.
    destruct (H1 i lat lon ms Hi) as (Hms & j & -> & Hj).
    split; [exact Hms |]. exists j. split; [reflexivity |].
    rewrite lookup_app_l by lia. exact Hj.
  - rewrite lookup_app_r in Hi by lia.
    destruct (H2 _ lat lon ms Hi) as (Hms & j & Hij & Hj).
    split; [exact Hms |]. exists (length t1 + j)%nat. split; [lia |].
    rewrite lookup_app_r by lia.
    replace (length t1 + j - length t1)%nat with j by lia. exact Hj.
Qed.

Lemma geocoded_first_attempt (w : World) (cities : list City.t) (k : nat) :
  geocoded_first (attempt_events w cities k).
Proof.
  intros i lat lon ms. unfold attempt_events, pause, geocoding_call, weather_call.
  destruct (verdict_at w cities k); destruct (k <? maxAttempts)%nat;
    repeat (destruct i as [| i]; cbn; try discriminate);
    intros H; injection H as <- <- <-; (split; [reflexivity |]);
    exists 1%nat; split; reflexivity.
Qed.

Lemma geocoded_first_run (w : World) (cities : list City.t) (a n : nat) :
  geocoded_first (flat_map (attempt_events w cities) (seq a n)).
Proof.
  revert a. induction n as [| n IH]; intros a.
  - intros i lat lon ms H. destruct i; discriminate.
  - cbn [seq flat_map]. apply geocoded_first_app; [apply geocoded_first_attempt | apply IH].
Qed.

Lemma array_get_elem {A : Type} (array : list A) (index : Z) (x : A) :
  array_get array index = Some x -> x ∈ array.
Proof.
  unfold array_get. destruct (index <? 0); [discriminate |].
  intros H. apply list_elem_of_lookup. eauto.
Qed.

Lemma calls_of_run_in_store (w : World) (cities : list City.t) (a n : nat) (u : url) :
  u ∈ calls (flat_map (attempt_events w cities) (seq a n)) ->
  exists city,
    city ∈ cities /\
    (u = nominatim_reverse (City.latitude city) (City.longitude city) \/
     u = open_meteo_forecast (City.latitude city) (City.longitude city)).
Proof.
  revert a. induction n as [| n IH]; intros a; [cbn; intros H; inversion H |].
  cbn [seq flat_map]. rewrite calls_app, elem_of_app. intros [H | H]; [| eapply IH; exact H].
  destruct (calls_attempt w cities a) as [Hc | (city & Hcity & [Hc | Hc])];
    rewrite Hc in H.
  - inversion H.
  - exists city. split; [eapply array_get_elem; exact Hcity |].
    apply list_elem_of_singleton in H. auto.
  - exists city. split; [eapply array_get_elem; exact Hcity |].
    apply elem_of_cons in H as [-> | H]; [auto |].
    apply list_elem_of_singleton in H. auto.
Qed.

(** X3.  The two upstream calls of an attempt are sequential and share
    their coordinates: in the trace of every request, each call to the
    weather service comes directly after a call to the geocoding service
    for the same latitude and longitude, both with the 10000 ms timeout;
    and every coordinate pair sent upstream is that of a record of the
    city list. *)
Theorem weather_call_follows_geocoding_call (w : World) (cities : list City.t) :
  let t := trace (snd (randomWeather w cities idle)) in
  (forall i latitude longitude ms,
      t !! i = Some (Fetched (open_meteo_forecast latitude longitude) ms) ->
      ms = 10000 /\
      exists j, i = S j /\
                t !! j = Some (Fetched (nominatim_reverse latitude longitude) 10000)) /\
  (forall u, u ∈ calls t ->
      exists city,
        city ∈ cities /\
        (u = nominatim_reverse (City.latitude city) (City.longitude city) \/
         u = open_meteo_forecast (City.latitude city) (City.longitude city))).
Proof.
  intros t.
  destruct (randomWeather_final_state w cities) as (m & _ & Hsnd & _).
  subst t. rewrite Hsnd. unfold after. cbn [trace idle app].
  split; [apply geocoded_first_run | apply calls_of_run_in_store].
Qed.

(** ** How often the weather service is called *)

Lemma weather_calls_attempt (w : World) (cities : list City.t) (k : nat) :
  length (filter (fun u => is_open_meteo u = true) (calls (attempt_events w cities k))) =
  if geocoded w cities k then 1%nat else 0%nat.
Proof.
  unfold geocoded, attempt_events, verdict_at, pause, geocoding_at, weather_at.
  destruct (city_at w cities k) as [city |]; [| reflexivity].
  destruct (reverseGeocode_returns w k (City.latitude city) (City.longitude city))
    as [g ->].
  destruct (fetchWeather_returns w k (City.latitude city) (City.longitude city))
    as [d ->].
  destruct g as [g |]; [| destruct (k <? maxAttempts)%nat; reflexivity].
  destruct d as [d |]; [| destruct (k <? maxAttempts)%nat; reflexivity].
  destruct (OpenMeteoResponse.current d), (OpenMeteoResponse.hourly d);
    try reflexivity; destruct (k <? maxAttempts)%nat; reflexivity.
Qed.

Lemma weather_calls_run (w : World) (cities : list City.t) (a n : nat) :
  length (filter (fun u => is_open_meteo u = true)
                 (calls (flat_map (attempt_events w cities) (seq a n)))) =
  length (filter (fun k => geocoded w cities k = true) (seq a n)).
Proof.
  revert a. induction n as [| n IH]; intros a; [reflexivity |].
  cbn [seq flat_map]. rewrite calls_app, filter_app, length_app, filter_cons.
  rewrite weather_calls_attempt, IH.
  destruct (geocoded w cities a); case_decide; try discriminate; try congruence;
    reflexivity.
Qed.

(** X4.  A failed geocoding call short-circuits its attempt: over a whole
    request, the weather service is called exactly once for each attempt
    whose geocoding call returned a location, and never in an attempt whose
    geocoding call returned nothing. *)
Theorem one_weather_call_per_geocoded_attempt (w : World) (cities : list City.t) :
  let s' := snd (randomWeather w cities idle) in
  length (filter (fun u => is_open_meteo u = true) (calls (trace s'))) =
  length (filter (fun k => geocoded w cities k = true) (seq 1 (draws s'))).
Proof.
  intros s'.
  destruct (randomWeather_final_state w cities) as (m & _ & Hsnd & _).
  subst s'. rewrite Hsnd. unfold after. cbn [draws trace idle app].
  apply weather_calls_run.
Qed.

(** ** Where the fields of a 200 come from *)

Lemma geocoding_at_some_inv (w : World) (k : nat) (city : City.t) (geoResult : GeoResult.t) :
  geocoding_at w k city = Normal (Some geoResult) ->
  exists reply place address,
    nominatim w k (City.latitude city) (City.longitude city) = inr reply /\
    ok reply = true /\
    json_result reply = inr place /\
    NominatimResponse.display_name place = Some (GeoResult.displayName geoResult) /\
    NominatimResponse.address place = Some address /\
    Address.country address = Some (GeoResult.country geoResult) /\
    GeoResult.displayName geoResult <> "" /\
    GeoResult.country geoResult <> "".
Proof.
  unfold geocoding_at, reverseGeocode. run_async.
  destruct (nominatim w k (City.latitude city) (City.longitude city)) as [e | r];
    [discriminate |].
  destruct (ok r) eqn:Hok; simpl; [| discriminate].
  destruct (json_result r) as [e | data] eqn:Hd; [discriminate |].
  destruct (NominatimResponse.display_name data) as [dn |] eqn:Hdn; [| discriminate].
  cbn [truthy].
  destruct (String.eqb dn "") eqn:Hdne; [discriminate |].
  destruct (NominatimResponse.address data) as [a |] eqn:Ha; [| discriminate].
  cbn [mbind option_bind].
  destruct (Address.country a) as [c |] eqn:Hc; [| discriminate].
  cbn [truthy].
  destruct (String.eqb c "") eqn:Hce; [discriminate |].
  intros H. injection H as <-. exists r, data, a.
  cbn [GeoResult.displayName GeoResult.country].
  apply String.eqb_neq in Hdne, Hce. repeat split; assumption.
Qed.




(** ** The hourly list when the arrays are not aligned *)

(** X6.  The hourly list is driven by the [time] array alone: it has
    [min 24 (time.length)] entries, whatever the lengths of the temperature
    and wind arrays; entry [i] pairs [time[i]] with [temperature_2m[i]] and
    [wind_speed_10m[i]], which are [undefined] when the respective array
    is shorter than [i + 1], and an upstream value at an index past the
    times or past 23 is never put into the response. *)
Theorem hourly_list_follows_the_time_array (hourly : Hourly.t) :
  length (hourlyForecast hourly) = Nat.min 24 (length (Hourly.time hourly)) /\
  (forall i, (i < Nat.min 24 (length (Hourly.time hourly)))%nat ->
     exists time,
       Hourly.time hourly !! i = Some time /\
       hourlyForecast hourly !! i =
       Some {| HourlyForecast.time := time;
               HourlyForecast.temperature := Hourly.temperature_2m hourly !! i;
               HourlyForecast.windSpeed := Hourly.wind_speed_10m hourly !! i |}) /\
  (forall i entry, hourlyForecast hourly !! i = Some entry ->
     (HourlyForecast.temperature entry = None <->
      (length (Hourly.temperature_2m hourly) <= i)%nat) /\
     (HourlyForecast.windSpeed entry = None <->
      (length (Hourly.wind_speed_10m hourly) <= i)%nat)) /\
  (forall i, (24 <= i)%nat \/ (length (Hourly.time hourly) <= i)%nat ->
     hourlyForecast hourly !! i = None).
Proof.
  split; [| split; [| split]].
  - unfold hourlyForecast. rewrite length_imap, length_take. reflexivity.
  - intros i Hi.
    destruct (lookup_lt_is_Some_2 (Hourly.time hourly) i) as [t Ht]; [lia |].
    exists t. split; [exact Ht |].
    rewrite hourlyForecast_lookup, Ht.
    destruct (decide (i < 24)%nat); [reflexivity | lia].
  - intros i entry. rewrite hourlyForecast_lookup.
    destruct (decide (i < 24)%nat); [| discriminate].
    destruct (Hourly.time hourly !! i) as [t |]; [| discriminate].
    cbn. intros H. injection H as <-.
    cbn [HourlyForecast.temperature HourlyForecast.windSpeed].
    split; apply lookup_ge_None.
  - intros i Hi. rewrite hourlyForecast_lookup.
    destruct (decide (i < 24)%nat) as [H24 | H24]; [| reflexivity].
    destruct Hi as [Hi | Hi]; [lia |].
    rewrite (proj2 (lookup_ge_None (Hourly.time hourly) i) Hi). reflexivity.
Qed.

(** ** Which draws select which city *)







(** X9.  On an empty city list every request dies on its first attempt,
    whatever the draw and whatever the services would answer:
    [getRandomCity] returns [undefined], the handler throws the [TypeError]
    and no upstream call and no sleep is made. *)
Theorem empty_store_never_reaches_upstream (w : World) :
  (forall s, fst (getRandomCity w [] s) = Normal None) /\
  randomWeather w [] idle =
  (Throws TypeError, {| draws := 1; trace := [Drew (Math_random w 1)] |}).
Proof.
  assert (Hnone : forall k, city_at w [] k = None).
  { intros k. unfold city_at, array_get.
    destruct (random_index (Math_random w k) (length []) <? 0); reflexivity. }
  split.
  - intros s. rewrite getRandomCity_run. cbn [fst]. rewrite Hnone. reflexivity.
  - unfold randomWeather.
    rewrite (for_attempts_no_city w [] maxAttempts 1%nat idle 1%nat);
      try reflexivity; try apply Hnone.
    + unfold after. cbn [draws trace idle app seq flat_map Nat.sub Nat.add].
      unfold attempt_events.
      rewrite (proj2 (crash_iff_no_city w [] 1%nat) (Hnone 1%nat)). reflexivity.
    + unfold maxAttempts. lia.
    + intros j Hj. lia.
Qed.

(** * Properties of the browser client *)

Ltac run_task :=
  cbv beta iota zeta delta
    [App.fetchRandomWeather App.bind App.ret App.throw App.try_catch App.try_finally
     App.await App.setWeather App.setLoading App.setError
     App.cells App.suspended App.weather App.loading App.error fst snd].

(** What [fetchRandomWeather] leaves in the cells, case by case. *)
Lemma fetchRandomWeather_run (fetch : App.thrown + App.Reply) (c : App.Component) :
  let waiting := {| App.weather := App.weather c; App.loading := true;
                    App.error := None |} in
  let failure message := {| App.weather := None; App.loading := false;
                            App.error := Some message |} in
  App.fetchRandomWeather fetch {| App.cells := c; App.suspended := [] |} =
  match fetch with
  | inl t =>
      (App.Done tt, {| App.cells := failure (App.message_for t);
                       App.suspended := [waiting] |})
  | inr reply =>
      (App.Done tt,
       {| App.cells :=
            match App.json_result reply with
            | inl t => failure (App.message_for t)
            | inr document =>
                if App.ok reply then
                  {| App.weather := Some document; App.loading := false;
                     App.error := None |}
                else
                  failure (match truthy (App.message_of document) with
                           | Some message => message
                           | None => "Failed to fetch weather data"
                           end)
            end;
          App.suspended := [waiting; waiting] |})
  end.
Proof.
  destruct c as [wx l e]. run_task.
  destruct fetch as [t | reply]; [reflexivity |].
  destruct (App.ok reply); cbn [negb];
    destruct (App.json_result reply) as [t | document]; reflexivity.
Qed.


(** X11.  While the request is in flight the page shows only the disabled
    button: every time the handler is suspended (it is, at least once, at
    the [fetch]) the cells have [loading] set and the error cleared, so
    the button is disabled and reads "Finding a city...", and neither the
    error card, nor the results, nor the welcome card is rendered; the
    previous weather document stays in its cell meanwhile. *)
Theorem in_flight_page_shows_only_the_button
    (fetch : App.thrown + App.Reply) (c : App.Component) :
  let run := App.fetchRandomWeather fetch {| App.cells := c; App.suspended := [] |} in
  App.suspended (snd run) <> [] /\
  forall shown, shown ∈ App.suspended (snd run) ->
    App.loading shown = true /\
    App.error shown = None /\
    App.weather shown = App.weather c /\
    App.render shown =
    {| App.button_disabled := true;
       App.button_label := "Finding a city...";
       App.error_card := None;
       App.weather_results := None;
       App.welcome_card := false |}.
Proof.
  intros run. subst run. rewrite fetchRandomWeather_run.
  assert (Hwaiting :
            App.render {| App.weather := App.weather c; App.loading := true;
                          App.error := None |} =
            {| App.button_disabled := true;
               App.button_label := "Finding a city...";
               App.error_card := None;
               App.weather_results := None;
               App.welcome_card := false |}).
  { unfold App.render. cbn. rewrite andb_false_r. reflexivity. }
  destruct fetch as [t | reply]; cbn [snd App.suspended]; (split; [discriminate |]);
    intros shown Hshown;
    repeat (apply elem_of_cons in Hshown as [-> | Hshown]; [auto |]);
    inversion Hshown.
Qed.

(** X12.  The message shown after a failed fetch.  A rejected [fetch] or an
    unparsable body gives the message of the thrown [Error], or "An
    unexpected error occurred" when the thrown value is not an [Error]; a
    non-2xx reply with an error document gives that document's [message],
    unless it is empty; a non-2xx reply whose document has no message, or
    an empty one, gives "Failed to fetch weather data". *)
Theorem error_message_of_a_failed_fetch (fetch : App.thrown + App.Reply)
    (c : App.Component) :
  let c' := App.cells (snd (App.fetchRandomWeather fetch
                              {| App.cells := c; App.suspended := [] |})) in
  (forall message, fetch = inl (App.Error message) -> App.error c' = Some message) /\
  (fetch = inl App.NotAnError -> App.error c' = Some "An unexpected error occurred") /\
  (forall reply message,
      fetch = inr reply -> App.json_result reply = inl (App.Error message) ->
      App.error c' = Some message) /\
  (forall reply,
      fetch = inr reply -> App.json_result reply = inl App.NotAnError ->
      App.error c' = Some "An unexpected error occurred") /\
  (forall reply e,
      fetch = inr reply -> App.ok reply = false ->
      App.json_result reply = inr (ErrorBody e) ->
      App.error c' =
      Some (if String.eqb (ErrorResponse.message e) ""
            then "Failed to fetch weather data" else ErrorResponse.message e)) /\
  (forall reply b,
      fetch = inr reply -> App.ok reply = false ->
      App.json_result reply = inr (WeatherBody b) ->
      App.error c' = Some "Failed to fetch weather data").
Proof.
  intros c'. subst c'. rewrite fetchRandomWeather_run.
  repeat split.
  - intros m ->. reflexivity.
  - intros ->. reflexivity.
  - intros reply m -> Hj. cbn. rewrite Hj. reflexivity.
  - intros reply -> Hj. cbn. rewrite Hj. reflexivity.
  - intros reply e -> Hok Hj. cbn. rewrite Hj, Hok. cbn.
    destruct (String.eqb (ErrorResponse.message e) ""); reflexivity.
  - intros reply b -> Hok Hj. cbn. rewrite Hj, Hok. reflexivity.
Qed.



(** X14.  The client shows what the handler sent.  When the handler of
    [GET /api/randomWeather] completes and its response is delivered to a
    page whose button is clicked, then after the fetch: for the 200 the
    results show the weather response of the handler and no error card is
    on screen; for the 503 the error card shows the fixed server message
    "Unable to resolve a valid location ..." and no results are on
    screen.  There is no third case. *)
Theorem page_shows_what_the_handler_sent (w : World) (cities : list City.t)
    (r : HttpResponse) (s' : state) (c : App.Component) :
  randomWeather w cities idle = (Normal r, s') ->
  App.loading c = false ->
  let page := App.render (App.click (inr (delivered r)) c) in
  App.button_disabled page = false /\
  App.welcome_card page = false /\
  ((statusCode r = 200 /\
    (exists answer, body r = WeatherBody answer) /\
    App.weather_results page = Some (body r) /\
    App.error_card page = None)
   \/
   (statusCode r = 503 /\
    App.weather_results page = None /\
    App.error_card page = Some (ErrorResponse.message unavailable))).
Proof.
  intros Hrun Hl page. subst page. unfold App.click.
  assert (App.button_disabled (App.render c) = false) as -> by exact Hl.
  rewrite fetchRandomWeather_run. unfold delivered. cbn [snd App.cells App.json_result].
  destruct (randomWeather_run w cities) as [[_ H] | (k & _ & _ & H)].
  - rewrite H in Hrun. injection Hrun as <- _.
    split; [reflexivity |]. split; [reflexivity |]. right.
    split; [reflexivity |]. split; reflexivity.
  - destruct H as [(city & g & d & cur & h & _ & H) | [_ (e & s'' & H)]].
    + rewrite H in Hrun. injection Hrun as <- _.
      split; [reflexivity |]. split; [reflexivity |]. left.
      split; [reflexivity |]. split; [eauto |]. split; reflexivity.
    + rewrite H in Hrun. discriminate.
Qed.

Lemma page_shows_what_the_handler_sent_witness :
  let page := App.render (App.click (inr (delivered fair_answer)) App.mounted) in
  App.button_disabled page = false /\
  App.welcome_card page = false /\
  ((statusCode fair_answer = 200 /\
    (exists answer, body fair_answer = WeatherBody answer) /\
    App.weather_results page = Some (body fair_answer) /\
    App.error_card page = None)
   \/
   (statusCode fair_answer = 503 /\
    App.weather_results page = None /\
    App.error_card page = Some (ErrorResponse.message unavailable))).
Proof.
  apply (page_shows_what_the_handler_sent fair [Testville] fair_answer
           (snd (randomWeather fair [Testville] idle)) App.mounted).
  - vm_compute. reflexivity.
  - reflexivity.
Defined.

(** ** Colour and wind bands *)

Lemma number_le_spec (a b : number) : number_le a b = true <-> (a <= b)%Q.
Proof. apply Qle_bool_iff. Qed.

Lemma number_le_false (a b : number) : number_le a b = false <-> (b < a)%Q.
Proof.
  unfold number_le. split; intros H.
  - apply Qnot_le_lt. intros Hle. apply Qle_bool_iff in Hle. congruence.
  - destruct (Qle_bool a b) eqn:Hb; [| reflexivity].
    apply Qle_bool_iff in Hb. exfalso. exact (Qlt_not_le _ _ H Hb).
Qed.

Lemma number_lt_spec (a b : number) : number_lt a b = true <-> (a < b)%Q.
Proof.
  unfold number_lt. rewrite negb_true_iff. apply number_le_false.
Qed.

Lemma number_lt_false (a b : number) : number_lt a b = false <-> (b <= a)%Q.
Proof.
  unfold number_lt. rewrite negb_false_iff. apply Qle_bool_iff.
Qed.

(** X15.  [getTemperatureColor] maps each temperature to the colour of
    exactly one band, the upper bound of a band included: blue up to 0,
    cyan above 0 up to 10, green above 10 up to 20, yellow above 20 up to
    30, red above 30.  In particular a warmer temperature never gets the
    colour of a colder band. *)
Theorem temperature_colour_bands (temp : number) :
  (App.getTemperatureColor temp = "#60a5fa" <-> (temp <= 0)%Q) /\
  (App.getTemperatureColor temp = "#22d3ee" <-> (0 < temp)%Q /\ (temp <= 10)%Q) /\
  (App.getTemperatureColor temp = "#4ade80" <-> (10 < temp)%Q /\ (temp <= 20)%Q) /\
  (App.getTemperatureColor temp = "#fbbf24" <-> (20 < temp)%Q /\ (temp <= 30)%Q) /\
  (App.getTemperatureColor temp = "#f87171" <-> (30 < temp)%Q).
Proof.
  unfold App.getTemperatureColor.
  destruct (number_le temp 0%Q) eqn:H0;
    [apply number_le_spec in H0 | apply number_le_false in H0;
     destruct (number_le temp 10%Q) eqn:H10;
     [apply number_le_spec in H10 | apply number_le_false in H10;
      destruct (number_le temp 20%Q) eqn:H20;
      [apply number_le_spec in H20 | apply number_le_false in H20;
       destruct (number_le temp 30%Q) eqn:H30;
       [apply number_le_spec in H30 | apply number_le_false in H30]]]];
    repeat split; try discriminate; try assumption; try tauto;
    intros; exfalso;
    repeat match goal with H : _ /\ _ |- _ => destruct H end;
    try (eapply Qlt_irrefl, Qlt_le_trans; eassumption);
    try (eapply Qlt_irrefl, Qle_lt_trans; eassumption);
    match goal with
    | Hlo : (?a < temp)%Q, Hhi : (temp <= ?b)%Q |- _ =>
        assert (Hab : (a < b)%Q) by (eapply Qlt_le_trans; eassumption);
        vm_compute in Hab; discriminate
    end.
Qed.

(** X16.  [getWindDescription] maps each wind speed to the label of
    exactly one band, the lower bound of a band included: "Calm" below 5,
    "Light breeze" from 5 to below 15, "Moderate wind" from 15 to below 30,
    "Strong wind" from 30 to below 50, "Very strong wind" from 50. *)
Theorem wind_description_bands (speed : number) :
  (App.getWindDescription speed = "Calm" <-> (speed < 5)%Q) /\
  (App.getWindDescription speed = "Light breeze" <-> (5 <= speed)%Q /\ (speed < 15)%Q) /\
  (App.getWindDescription speed = "Moderate wind" <-> (15 <= speed)%Q /\ (speed < 30)%Q) /\
  (App.getWindDescription speed = "Strong wind" <-> (30 <= speed)%Q /\ (speed < 50)%Q) /\
  (App.getWindDescription speed = "Very strong wind" <-> (50 <= speed)%Q).
Proof.
  unfold App.getWindDescription.
  destruct (number_lt speed 5%Q) eqn:H5;
    [apply number_lt_spec in H5 | apply number_lt_false in H5;
     destruct (number_lt speed 15%Q) eqn:H15;
     [apply number_lt_spec in H15 | apply number_lt_false in H15;
      destruct (number_lt speed 30%Q) eqn:H30;
      [apply number_lt_spec in H30 | apply number_lt_false in H30;
       destruct (number_lt speed 50%Q) eqn:H50;
       [apply number_lt_spec in H50 | apply number_lt_false in H50]]]];
    repeat split; try discriminate; try assumption; try tauto;
    intros; exfalso;
    repeat match goal with H : _ /\ _ |- _ => destruct H end;
    try (eapply Qlt_irrefl, Qlt_le_trans; eassumption);
    try (eapply Qlt_irrefl, Qle_lt_trans; eassumption);
    match goal with
    | Hlo : (?a <= speed)%Q, Hhi : (speed < ?b)%Q |- _ =>
        assert (Hab : (a < b)%Q) by (eapply Qle_lt_trans; eassumption);
        vm_compute in Hab; discriminate
    end.
Qed.

(** * The pace of the geocoding calls *)

Section Pace.

Variable w : World.
Variable cities : list City.t.

Lemma last_attempt_failed (k : nat) :
  failed w cities k = true -> (k < maxAttempts)%nat ->
  last (attempt_events w cities k) = Some (Slept retryDelay).
Proof.
  unfold failed, attempt_events, pause. intros Hf Hk.
  apply Nat.ltb_lt in Hk. rewrite Hk.
  destruct (verdict_at w cities k); try discriminate; reflexivity.
Qed.

Lemma last_failed_run (a n : nat) :
  (forall j, (a <= j < a + S n)%nat -> failed w cities j = true) ->
  (a + S n <= maxAttempts)%nat ->
  last (flat_map (attempt_events w cities) (seq a (S n))) = Some (Slept retryDelay).
Proof.
  intros Hfail Hle. rewrite flat_map_seq_snoc, last_app.
  rewrite last_attempt_failed; [reflexivity | apply Hfail; lia | lia].
Qed.

Lemma geocoding_call_position (k i : nat) (latitude longitude : number) (ms : Z) :
  attempt_events w cities k !! i =
  Some (Fetched (nominatim_reverse latitude longitude) ms) ->
  i = 1%nat.
Proof.
  unfold attempt_events, pause, geocoding_call, weather_call.
  destruct (verdict_at w cities k); destruct (k <? maxAttempts)%nat;
    repeat (destruct i as [| i]; cbn; try discriminate); reflexivity.
Qed.

Lemma attempt_starts_with_draw (k : nat) :
  attempt_events w cities k !! 0%nat = Some (Drew (Math_random w k)).
Proof. reflexivity. Qed.

Lemma paced_run (m : nat) :
  (m <= maxAttempts)%nat ->
  (forall j, (1 <= j < m)%nat -> failed w cities j = true) ->
  paced (flat_map (attempt_events w cities) (seq 1 m)).
Proof.
  induction m as [| m IH]; intros Hm Hfail.
  - intros i lat lon ms H. destruct i; discriminate.
  - rewrite flat_map_seq_snoc. change (1 + m)%nat with (S m).
    set (T := flat_map (attempt_events w cities) (seq 1 m)) in *.
    intros i lat lon ms Hi.
    destruct (decide (i < length T)%nat) as [Hlt | Hge].
    + rewrite lookup_app_l in Hi by exact Hlt.
      destruct (IH ltac:(lia) ltac:(intros j Hj; apply Hfail; lia) i lat lon ms Hi)
        as (r & [[-> H0] | (j & -> & Hj & Hj')]); exists r.
      * left. split; [reflexivity |]. rewrite lookup_app_l by lia. exact H0.
      * right. exists j. split; [reflexivity |].
        rewrite !lookup_app_l by lia. auto.
    + rewrite lookup_app_r in Hi by lia.
      pose proof (geocoding_call_position _ _ _ _ _ Hi) as Hpos.
      exists (Math_random w (S m)).
      assert (Hdraw : (T ++ attempt_events w cities (S m)) !! length T =
                      Some (Drew (Math_random w (S m)))).
      { rewrite lookup_app_r by lia. rewrite Nat.sub_diag.
        apply attempt_starts_with_draw. }
      destruct m as [| n].
      * left. subst T. cbn [seq flat_map length] in *. split; [lia | exact Hdraw].
      * right. exists (Nat.pred (length T)).
        assert (Hlast : last T = Some (Slept retryDelay)).
        { subst T. apply last_failed_run; [intros j Hj; apply Hfail; lia | lia]. }
        assert (HT : (0 < length T)%nat).
        { destruct T; [discriminate | cbn; lia]. }
        rewrite last_lookup in Hlast.
        split; [lia |]. split.
        -- rewrite lookup_app_l by lia. exact Hlast.
        -- replace (S (Nat.pred (length T))) with (length T) by lia. exact Hdraw.
Qed.

End Pace.

(** X17.  The retry delay paces the geocoding service.  In the trace of
    every request, the first geocoding call follows the first draw, and
    every later geocoding call is preceded by a sleep of 1100 ms and the
    draw of its attempt: within one request, two geocoding calls are
    always separated by a sleep of 1100 ms. *)
Theorem geocoding_calls_are_paced (w : World) (cities : list City.t) :
  let t := trace (snd (randomWeather w cities idle)) in
  forall i latitude longitude ms,
    t !! i = Some (Fetched (nominatim_reverse latitude longitude) ms) ->
    exists r,
      (i = 1%nat /\ t !! 0%nat = Some (Drew r)) \/
      (exists j, i = S (S j) /\
                 t !! j = Some (Slept 1100) /\
                 t !! S j = Some (Drew r)).
Proof.
  intros t.
  destruct (randomWeather_final_state w cities) as (m & Hm & Hsnd & Hfail & _).
  subst t. rewrite Hsnd. unfold after. cbn [trace idle app].
  exact (paced_run w cities m Hm Hfail).
Qed.

Lemma geocoding_calls_are_paced_witness :
  let t := trace (snd (randomWeather flaky [Testville] idle)) in
  exists r,
    (4%nat = 1%nat /\ t !! 0%nat = Some (Drew r)) \/
    (exists j, 4%nat = S (S j) /\
               t !! j = Some (Slept 1100) /\
               t !! S j = Some (Drew r)).
Proof.
  apply (geocoding_calls_are_paced flaky [Testville] 4%nat 10%Q 20%Q 10000).
  vm_compute. reflexivity.
Defined.

(** * Truthiness in [reverseGeocode] *)

(** X18.  [reverseGeocode] tests its two fields for truthiness, not for
    presence: it returns a location exactly when the service answered with
    a 2xx status and a document whose [display_name] and [address.country]
    are both present and not empty, and the location holds those two
    strings; a document whose display name or country is the empty string
    is rejected like one without the field. *)
Theorem reverseGeocode_wants_non_empty_fields (w : World) (latitude longitude : number)
    (s : state) :
  let answer := nominatim w (draws s) latitude longitude in
  let result := fst (reverseGeocode w latitude longitude s) in
  (forall geoResult,
      result = Normal (Some geoResult) <->
      exists reply place address,
        answer = inr reply /\
        ok reply = true /\
        json_result reply = inr place /\
        NominatimResponse.display_name place = Some (GeoResult.displayName geoResult) /\
        NominatimResponse.address place = Some address /\
        Address.country address = Some (GeoResult.country geoResult) /\
        GeoResult.displayName geoResult <> "" /\
        GeoResult.country geoResult <> "") /\
  (forall reply place,
      answer = inr reply ->
      json_result reply = inr place ->
      (NominatimResponse.display_name place = Some "" \/
       exists address, NominatimResponse.address place = Some address /\
                       Address.country address = Some "") ->
      result = Normal None).
Proof.
  destruct s as [k t]. intros answer result. cbn [draws] in answer.
  set (s := {| draws := k; trace := t |}) in *.
  set (city := {| City.name := ""; City.country := ""; City.latitude := latitude;
                  City.longitude := longitude; City.population := 0%Q |}).
  assert (Hres : result = geocoding_at w (draws s) city).
  { subst result. rewrite reverseGeocode_run. reflexivity. }
  change (draws s) with k in *.
  assert (Hback : forall reply place address display_name country,
             answer = inr reply -> ok reply = true -> json_result reply = inr place ->
             NominatimResponse.display_name place = Some display_name ->
             NominatimResponse.address place = Some address ->
             Address.country address = Some country ->
             result = if String.eqb display_name "" then Normal None
                      else if String.eqb country "" then Normal None
                      else Normal (Some {| GeoResult.displayName := display_name;
                                           GeoResult.country := country |})).
  { intros reply place a dn c Ha Hok Hj Hdn Haddr Hc.
    rewrite Hres. unfold geocoding_at, reverseGeocode. run_async.
    cbn [City.latitude City.longitude city]. subst s. cbn [draws] in *.
    fold answer. rewrite Ha, Hok. cbn [negb].
    rewrite Hj, Hdn, Haddr. cbn [mbind option_bind truthy]. rewrite Hc. cbn [truthy].
    destruct (String.eqb dn ""); [reflexivity |].
    destruct (String.eqb c ""); reflexivity. }
  split.
  - intros g. split.
    + rewrite Hres. intros H. apply geocoding_at_some_inv in H. exact H.
    + intros (reply & place & a & Ha & Hok & Hj & Hdn & Haddr & Hc & Hne1 & Hne2).
      rewrite (Hback reply place a _ _ Ha Hok Hj Hdn Haddr Hc).
      apply String.eqb_neq in Hne1, Hne2. rewrite Hne1, Hne2.
      destruct g; reflexivity.
  - intros reply place Ha Hj Hempty.
    destruct (reverseGeocode_returns w k latitude longitude) as [[g |] Hr];
      fold city in Hres; unfold geocoding_at in Hres; cbn [City.latitude City.longitude city] in Hres;
      rewrite <- Hres in Hr; [| exact Hr].
    exfalso. rewrite Hres in Hr.
    change (geocoding_at w k city = Normal (Some g)) in Hr.
    apply geocoding_at_some_inv in Hr
      as (reply' & place' & a & Ha' & _ & Hj' & Hdn & Haddr & Hc & Hne1 & Hne2).
    cbn [City.latitude City.longitude city] in Ha'. fold answer in Ha'.
    rewrite Ha in Ha'. injection Ha' as <-.
    rewrite Hj in Hj'. injection Hj' as <-.
    destruct Hempty as [He | (a' & Ha2 & He)]; [congruence |].
    rewrite Haddr in Ha2. injection Ha2 as <-. congruence.
Qed.
